(** * Toolchain configuration of the Next.js devcontainer template

    The repository owns two executable artefacts: [jest.config.ts] (the
    test-runner configuration) and the flat ESLint configuration.  Both are
    declarative objects made of string literals: regular expressions, glob
    patterns, severities.  This development embeds the two objects literal
    by literal and gives the patterns their meaning, so that statements such
    as "every matched path lies under the source directory" become theorems
    about all paths.

    Layout: JavaScript strings, glob patterns, regular expressions, the
    Jest configuration with the runner's use of it, the configuration that
    the file exports through the framework's factory, the ESLint
    configuration, and finally the properties. *)

From Stdlib Require Import List String Ascii NArith Bool Arith Lia.
Import ListNotations.

(** ** JavaScript strings *)

(** A JavaScript string is a sequence of UTF-16 code units.  The literals of
    the two configuration files are plain ASCII, so they are kept as Rocq
    strings inside the configuration records; [units] gives their code
    units.  Paths and module specifiers, which come from the outside, are
    arbitrary code-unit sequences. *)
Module JsString.

Definition jsstring := list N.

Definition units (s : string) : jsstring :=
  map N_of_ascii (list_ascii_of_string s).

Fixpoint eqb (a b : jsstring) : bool :=
  match a, b with
  | [], [] => true
  | x :: a', y :: b' => N.eqb x y && eqb a' b'
  | _, _ => false
  end.

(** [startsWith]: [strip_prefix p s] removes the prefix [p] from [s]. *)
Fixpoint strip_prefix (p s : jsstring) : option jsstring :=
  match p with
  | [] => Some s
  | x :: p' =>
      match s with
      | [] => None
      | y :: s' => if N.eqb x y then strip_prefix p' s' else None
      end
  end.

Definition starts_with (p s : jsstring) : bool :=
  match strip_prefix p s with Some _ => true | None => false end.

(** [endsWith]. *)
Definition ends_with (suf s : jsstring) : bool :=
  starts_with (rev suf) (rev s).

(** All the suffixes of a string, longest first. *)
Fixpoint tails (s : jsstring) : list jsstring :=
  match s with
  | [] => [[]]
  | _ :: t => s :: tails t
  end.

(** [needle] does not occur in [hay] at any index other than 0. *)
Definition no_later_occurrence (needle hay : jsstring) : bool :=
  match hay with
  | [] => true
  | _ :: t => forallb (fun suf => negb (starts_with needle suf)) (tails t)
  end.

Definition slash : N := 47.

(** The segments of a path: the pieces between ['/'] separators. *)
Fixpoint segments (s : jsstring) : list jsstring :=
  match s with
  | [] => [[]]
  | c :: s' =>
      if N.eqb c slash then [] :: segments s'
      else match segments s' with
           | h :: t => (c :: h) :: t
           | [] => [[c]]
           end
  end.

Fixpoint join (l : list jsstring) : jsstring :=
  match l with
  | [] => []
  | [a] => a
  | a :: rest => a ++ slash :: join rest
  end.

(** No separator occurs in [s]. *)
Definition no_slash (s : jsstring) : bool :=
  forallb (fun c => negb (N.eqb c slash)) s.

(** The path has a directory named [d]: a segment equal to [d] that is not
    the last one (the last segment is the file's own name). *)
Definition has_dir_segment (d path : jsstring) : bool :=
  existsb (eqb d) (removelast (segments path)).

(** The line terminators of ECMAScript: LF, CR, U+2028 and U+2029. *)
Definition is_line_terminator (c : N) : bool :=
  N.eqb c 10 || N.eqb c 13 || N.eqb c 8232 || N.eqb c 8233.

Definition no_line_terminator (s : jsstring) : bool :=
  forallb (fun c => negb (is_line_terminator c)) s.

End JsString.
Import JsString.

(** ** Glob patterns *)

(** The glob dialect shared by the test runner's [testMatch] and the
    linter's [ignores], restricted to the constructs the two files use: a
    pattern is a ['/']-separated list of segments; the segment [**] stands
    for any number of path segments, none included; inside a segment [*]
    stands for any run of characters, the empty one included (both tools
    are run with dot files enabled), and [{a,b}] for one of the listed
    alternatives; every other character stands for itself.  The matchers
    themselves are third-party code; this is their documented meaning on
    such patterns. *)
Module Glob.

Inductive gtok :=
| GLit (c : N)
| GStar
| GBrace (alts : list jsstring).

Inductive gseg :=
| GlobStar
| Seg (ts : list gtok).

Definition star : N := 42.
Definition lbrace : N := 123.
Definition rbrace : N := 125.
Definition comma : N := 44.

(** Characters that start a construct outside the supported dialect. *)
Definition unsupported (c : N) : bool :=
  N.eqb c 63 (* ? *) || N.eqb c 91 (* [ *) || N.eqb c 93 (* ] *)
  || N.eqb c 40 (* ( *) || N.eqb c 41 (* ) *) || N.eqb c 33 (* ! *)
  || N.eqb c 92 (* \ *).

(** Tokens of one segment.  [br] is the state of the brace being read, if
    any: the alternatives closed so far and the current one, both
    reversed. *)
Fixpoint parse_tokens (br : option (list jsstring * jsstring)) (s : jsstring)
  : option (list gtok) :=
  match s with
  | [] => match br with None => Some [] | Some _ => None end
  | c :: s' =>
      if unsupported c then None else
      match br with
      | None =>
          if N.eqb c lbrace then parse_tokens (Some ([], [])) s'
          else if N.eqb c rbrace then None
          else option_map (cons (if N.eqb c star then GStar else GLit c))
                          (parse_tokens None s')
      | Some (done, cur) =>
          if N.eqb c rbrace then
            option_map (cons (GBrace (rev (rev cur :: done))))
                       (parse_tokens None s')
          else if N.eqb c comma then parse_tokens (Some (rev cur :: done, [])) s'
          else if N.eqb c lbrace || N.eqb c star then None
          else parse_tokens (Some (done, c :: cur)) s'
      end
  end.

Definition parse_segment (s : jsstring) : option gseg :=
  if JsString.eqb s [star; star] then Some GlobStar
  else option_map Seg (parse_tokens None s).

Fixpoint sequence {A} (l : list (option A)) : option (list A) :=
  match l with
  | [] => Some []
  | None :: _ => None
  | Some a :: l' => option_map (cons a) (sequence l')
  end.

Definition parse (pattern : string) : option (list gseg) :=
  sequence (map parse_segment (segments (units pattern))).

(** One segment against its tokens. *)
Fixpoint seg_match (ts : list gtok) (s : jsstring) : bool :=
  match ts with
  | [] => match s with [] => true | _ => false end
  | GLit c :: ts' =>
      match s with
      | [] => false
      | c' :: s' => N.eqb c c' && seg_match ts' s'
      end
  | GStar :: ts' =>
      (fix skip (s : jsstring) : bool :=
         seg_match ts' s
         || match s with [] => false | _ :: s' => skip s' end) s
  | GBrace alts :: ts' =>
      existsb (fun a => match strip_prefix a s with
                        | Some s' => seg_match ts' s'
                        | None => false
                        end) alts
  end.

(** The segments of a path against the segments of a pattern. *)
Fixpoint segs_match (ps : list gseg) (fs : list jsstring) : bool :=
  match ps with
  | [] => match fs with [] => true | _ => false end
  | GlobStar :: ps' =>
      (fix skip (fs : list jsstring) : bool :=
         segs_match ps' fs
         || match fs with [] => false | _ :: fs' => skip fs' end) fs
  | Seg ts :: ps' =>
      match fs with
      | [] => false
      | f :: fs' => seg_match ts f && segs_match ps' fs'
      end
  end.

Definition matches (pattern : string) (path : jsstring) : bool :=
  match parse pattern with
  | Some ps => segs_match ps (segments path)
  | None => false
  end.

End Glob.

(** ** Regular expressions *)

(** The fragment of ECMAScript regular expressions that the configuration
    uses, with the backtracking semantics of the language standard: literal
    characters and identity escapes, [.] (any code unit but a line
    terminator), the assertions [^] and [$] (no multiline flag: start and
    end of the input), capturing groups, alternation, and the greedy
    quantifiers [*], [+] and [?].  Everything else (classes, class escapes,
    lazy or counted quantifiers, non-capturing groups, quantified groups and
    assertions) is refused by the parser, so that no pattern is given a
    meaning it does not have. *)
Module Regex.

Inductive regex :=
| Empty
| Chr (c : N)
| Any
| Bol
| Eol
| Seq (r1 r2 : regex)
| Alt (r1 r2 : regex)
| Star (r : regex)
| Plus (r : regex)
| Opt (r : regex)
| Group (i : nat) (r : regex).

Definition caret : N := 94.
Definition dollar : N := 36.
Definition dot : N := 46.
Definition star : N := 42.
Definition plus : N := 43.
Definition question : N := 63.
Definition lparen : N := 40.
Definition rparen : N := 41.
Definition bar : N := 124.
Definition backslash : N := 92.

(** The syntax characters of the pattern grammar, and ['/']. *)
Definition is_syntax_char (c : N) : bool :=
  existsb (N.eqb c) [caret; dollar; backslash; dot; star; plus; question;
                     lparen; rparen; 91%N; 93%N; 123%N; 125%N; bar; slash].

Definition quantifiable (r : regex) : bool :=
  match r with
  | Chr _ | Any => true
  | _ => false
  end.

Definition is_quantifier (c : N) : bool :=
  N.eqb c star || N.eqb c plus || N.eqb c question.

Definition quantified (q : N) (a : regex) : regex :=
  if N.eqb q star then Star a else if N.eqb q plus then Plus a else Opt a.

(** An optional quantifier after the atom [a].  A quantifier followed by
    [?] is lazy, and a quantified group or assertion would need the
    captures to be reset at each round: both are refused. *)
Definition parse_quantifier (a : regex) (s : jsstring)
  : option (regex * jsstring) :=
  match s with
  | q :: s' =>
      if is_quantifier q then
        if starts_with [question] s' || negb (quantifiable a) then None
        else Some (quantified q a, s')
      else Some (a, s)
  | [] => Some (a, s)
  end.

(** Recursive descent; [g] counts the groups opened so far, so that groups
    are numbered by their opening parenthesis, left to right. *)
Fixpoint parse_disjunction (fuel : nat) (s : jsstring) (g : nat)
  : option (regex * jsstring * nat) :=
  match fuel with
  | 0 => None
  | S f =>
      match parse_alternative f s g with
      | Some (r1, s1, g1) =>
          match s1 with
          | c :: s2 =>
              if N.eqb c bar then
                match parse_disjunction f s2 g1 with
                | Some (r2, s3, g2) => Some (Alt r1 r2, s3, g2)
                | None => None
                end
              else Some (r1, s1, g1)
          | [] => Some (r1, s1, g1)
          end
      | None => None
      end
  end
with parse_alternative (fuel : nat) (s : jsstring) (g : nat)
  : option (regex * jsstring * nat) :=
  match fuel with
  | 0 => None
  | S f =>
      match s with
      | [] => Some (Empty, s, g)
      | c :: _ =>
          if N.eqb c bar || N.eqb c rparen then Some (Empty, s, g)
          else
            match parse_atom f s g with
            | Some (a, s1, g1) =>
                match parse_quantifier a s1 with
                | Some (t, s2) =>
                    match parse_alternative f s2 g1 with
                    | Some (r, s3, g2) => Some (Seq t r, s3, g2)
                    | None => None
                    end
                | None => None
                end
            | None => None
            end
      end
  end
with parse_atom (fuel : nat) (s : jsstring) (g : nat)
  : option (regex * jsstring * nat) :=
  match fuel with
  | 0 => None
  | S f =>
      match s with
      | [] => None
      | c :: s' =>
          if N.eqb c lparen then
            match parse_disjunction f s' (S g) with
            | Some (r, c' :: s1, g1) =>
                if N.eqb c' rparen then Some (Group (S g) r, s1, g1) else None
            | _ => None
            end
          else if N.eqb c backslash then
            match s' with
            | e :: s1 => if is_syntax_char e then Some (Chr e, s1, g) else None
            | [] => None
            end
          else if N.eqb c dot then Some (Any, s', g)
          else if N.eqb c caret then Some (Bol, s', g)
          else if N.eqb c dollar then Some (Eol, s', g)
          else if is_syntax_char c && negb (N.eqb c slash) then None
          else Some (Chr c, s', g)
      end
  end.

(** The pattern and its number of capturing groups. *)
Definition parse (pattern : string) : option (regex * nat) :=
  let s := units pattern in
  match parse_disjunction (3 * List.length s + 3) s 0 with
  | Some (r, [], g) => Some (r, g)
  | _ => None
  end.

(** The matcher's state: the index reached in the input, what is left of
    the input, and the captures so far. *)
Record mstate := {
  pos : nat;
  rest : jsstring;
  caps : list (option jsstring)
}.

Definition advance (st : mstate) (t : jsstring) : mstate :=
  {| pos := S (pos st); rest := t; caps := caps st |}.

Fixpoint set_nth {A} (i : nat) (x : A) (l : list A) : list A :=
  match l, i with
  | [], _ => []
  | _ :: l', 0 => x :: l'
  | y :: l', S i' => y :: set_nth i' x l'
  end.

Definition continuation := mstate -> option mstate.

(** Greedy repetition of [step], at most [n] times; an iteration that
    consumes nothing fails, as the standard's RepeatMatcher has it. *)
Fixpoint iterate (step : mstate -> continuation -> option mstate) (n : nat)
  (st : mstate) (k : continuation) : option mstate :=
  match n with
  | 0 => k st
  | S n' =>
      match step st (fun st' =>
                       if List.length (rest st') <? List.length (rest st)
                       then iterate step n' st' k else None) with
      | Some res => Some res
      | None => k st
      end
  end.

(** Backtracking matcher in continuation-passing style. *)
Fixpoint run (r : regex) (st : mstate) (k : continuation) : option mstate :=
  match r with
  | Empty => k st
  | Chr c =>
      match rest st with
      | c' :: t => if N.eqb c c' then k (advance st t) else None
      | [] => None
      end
  | Any =>
      match rest st with
      | c' :: t => if is_line_terminator c' then None else k (advance st t)
      | [] => None
      end
  | Bol => if Nat.eqb (pos st) 0 then k st else None
  | Eol => match rest st with [] => k st | _ :: _ => None end
  | Seq r1 r2 => run r1 st (fun st' => run r2 st' k)
  | Alt r1 r2 =>
      match run r1 st k with
      | Some res => Some res
      | None => run r2 st k
      end
  | Star r' => iterate (run r') (S (List.length (rest st))) st k
  | Plus r' =>
      run r' st (fun st' => iterate (run r') (S (List.length (rest st'))) st' k)
  | Opt r' =>
      match run r' st k with
      | Some res => Some res
      | None => k st
      end
  | Group i r' =>
      run r' st (fun st' =>
        k {| pos := pos st'; rest := rest st';
             caps := set_nth i (Some (firstn (pos st' - pos st) (rest st)))
                             (caps st') |})
  end.

(** One attempt at index [i], where [suffix] is the input from [i] on.  The
    result is the match array: the matched text, then the captures. *)
Definition attempt (r : regex) (groups i : nat) (suffix : jsstring)
  : option (list (option jsstring)) :=
  match run r {| pos := i; rest := suffix; caps := repeat None (S groups) |}
            Some with
  | Some st' => Some (set_nth 0 (Some (firstn (pos st' - i) suffix)) (caps st'))
  | None => None
  end.

(** The search of an unanchored, non-global pattern: the first index at
    which an attempt succeeds. *)
Fixpoint scan (r : regex) (groups i : nat) (suffix : jsstring)
  : option (list (option jsstring)) :=
  match attempt r groups i suffix with
  | Some m => Some m
  | None =>
      match suffix with
      | [] => None
      | _ :: t => scan r groups (S i) t
      end
  end.

(** [input.match(new RegExp(pattern))]. *)
Definition exec (pattern : string) (input : jsstring)
  : option (list (option jsstring)) :=
  match parse pattern with
  | Some (r, groups) => scan r groups 0 input
  | None => None
  end.

(** [new RegExp(pattern).test(input)]. *)
Definition test (pattern : string) (input : jsstring) : bool :=
  match exec pattern input with Some _ => true | None => false end.

(** The pattern that reads the literal text [l] and goes on with [r]; the
    parser produces this shape for a run of literal characters. *)
Fixpoint chars (l : jsstring) (r : regex) : regex :=
  match l with
  | [] => r
  | c :: l' => Seq (Chr c) (chars l' r)
  end.

(** The state [n] characters further, with [t] left to read. *)
Definition moved (st : mstate) (n : nat) (t : jsstring) : mstate :=
  {| pos := pos st + n; rest := t; caps := caps st |}.

End Regex.

(** ** The test-runner configuration: jest.config.ts *)
Module Jest.

Record Config := {
  testEnvironment : string;
  setupFilesAfterEnv : list string;
  moduleNameMapper : list (string * string);
  transform : list (string * string);
  testPathIgnorePatterns : list string;
  testMatch : list string
}.

(** The object literal [customJestConfig], which the file hands to the
    factory returned by [nextJest]; what the file exports is the subject of
    [NextJest] below.  This module is about the object the repository
    writes.

    The runner replaces the token [<rootDir>] by the path of the project
    root in every pattern and compares the result with absolute paths.
    In this module the token is kept, in the patterns and in the paths
    alike: a path is written [<rootDir>/src/...] whatever the root is, and
    what follows the token is the path below the root. *)
Definition customJestConfig : Config := {|
  testEnvironment := "jest-environment-jsdom";
  setupFilesAfterEnv := ["<rootDir>/jest.setup.ts"];
  moduleNameMapper := [("^@/(.*)$", "<rootDir>/src/$1")];
  transform := [("^.+\.(ts|tsx)$", "ts-jest")];
  testPathIgnorePatterns :=
    ["<rootDir>/.next/";
     "<rootDir>/node_modules/";
     "<rootDir>/tests/"];
  testMatch :=
    ["<rootDir>/src/**/__tests__/**/*.{js,jsx,ts,tsx}";
     "<rootDir>/src/**/*.{spec,test}.{js,jsx,ts,tsx}"]
|}%string.

(** A path is a test file when some [testMatch] glob matches it. *)
Definition test_matched (cfg : Config) (path : jsstring) : bool :=
  existsb (fun g => Glob.matches g path) (testMatch cfg).

(** A path is skipped when some [testPathIgnorePatterns] entry, read as a
    regular expression, is found anywhere in it. *)
Definition path_ignored (cfg : Config) (path : jsstring) : bool :=
  existsb (fun p => Regex.test p path) (testPathIgnorePatterns cfg).

(** The key [key] of the transform map applies to [file]. *)
Definition transform_key_matches (key : string) (file : jsstring) : bool :=
  Regex.test key file.

Definition dollar : N := 36.

Definition is_digit (c : N) : bool := N.leb 48 c && N.leb c 57.

Definition digit_value (c : N) : nat := N.to_nat (c - 48).

(** [matches[n] || '']. *)
Definition capture (m : list (option jsstring)) (n : nat) : jsstring :=
  match nth n m None with Some s => s | None => [] end.

(** What a pending [$] and its digits turn into when no digit follows. *)
Definition flush (m : list (option jsstring)) (pending : option (option nat))
  : jsstring :=
  match pending with
  | None => []
  | Some None => [dollar]
  | Some (Some n) => capture m n
  end.

(** The replacement of every [$] followed by digits in the mapped name by
    the capture of that number.  [pending] is [Some None] after a [$] and
    [Some (Some n)] after a [$] and digits that read [n]. *)
Fixpoint substitute (m : list (option jsstring)) (pending : option (option nat))
  (target : jsstring) : jsstring :=
  match target with
  | [] => flush m pending
  | c :: t =>
      match pending with
      | Some p =>
          if is_digit c then
            substitute m
              (Some (Some (match p with
                           | None => digit_value c
                           | Some n => 10 * n + digit_value c
                           end))) t
          else
            flush m pending
            ++ (if N.eqb c dollar then substitute m (Some None) t
                else c :: substitute m None t)
      | None =>
          if N.eqb c dollar then substitute m (Some None) t
          else c :: substitute m None t
      end
  end.

(** The module-name mapper: the first entry whose pattern is found in the
    specifier rewrites it to the entry's target, captures substituted; a
    specifier that no pattern matches is left alone ([None]). *)
Fixpoint map_module_name (mapper : list (string * string)) (name : jsstring)
  : option jsstring :=
  match mapper with
  | [] => None
  | (pattern, target) :: others =>
      match Regex.exec pattern name with
      | Some m => Some (substitute m None (units target))
      | None => map_module_name others name
      end
  end.

End Jest.

(** ** The exported configuration: the config object through next/jest *)

(** [jest.config.ts] does not export its object literal: it exports
    [createJestConfig(customJestConfig)], where [createJestConfig] is the
    factory that [nextJest({ dir: './' })] returns.  The factory is the
    framework's; it keeps the fields of the object and puts entries of its
    own in front of three of them: [moduleNameMapper] and [transform] are
    built as [{ ...defaults, ...custom }], [testPathIgnorePatterns] as
    [[...defaults, ...custom]].  What these entries are depends on the
    version of the framework, so they are a parameter ([Defaults]) of
    what is stated about the exported configuration; the entries that the
    framework publishes are kept in [nextJestDefaults], for the examples
    and for what is said of these entries themselves.

    The runner, in turn, replaces the token [<rootDir>] by the path of the
    project root: in an ignore pattern by plain text replacement before the
    pattern is compiled, in an include pattern by resolving the pattern
    against the root.  [test_matched_in] and [path_ignored_in] are the
    runner's two tests for a given root, on absolute paths. *)
Module NextJest.
Import Jest.

Record Defaults := {
  mapperDefaults : list (string * string);
  transformDefaults : list (string * string);
  ignoreDefaults : list string
}.

Definition has_key {A} (key : string) (fields : list (string * A)) : bool :=
  existsb (fun kv => String.eqb (fst kv) key) fields.

(** The value of [key] in an object literal, the last one written. *)
Fixpoint own_value {A} (key : string) (fields : list (string * A))
  : option A :=
  match fields with
  | [] => None
  | (k, v) :: others =>
      match own_value key others with
      | Some v' => Some v'
      | None => if String.eqb k key then Some v else None
      end
  end.

(** [{ ...defaults, ...custom }]: the keys of [defaults] keep their place
    and take the value that [custom] gives them, if any; the other keys of
    [custom] follow in their order. *)
Definition spread {A} (defaults custom : list (string * A))
  : list (string * A) :=
  map (fun kv => match own_value (fst kv) custom with
                 | Some v => (fst kv, v)
                 | None => kv
                 end) defaults
  ++ filter (fun kv => negb (has_key (fst kv) defaults)) custom.

Definition createJestConfig (d : Defaults) (custom : Config) : Config := {|
  testEnvironment := testEnvironment custom;
  setupFilesAfterEnv := setupFilesAfterEnv custom;
  moduleNameMapper := spread (mapperDefaults d) (moduleNameMapper custom);
  transform := spread (transformDefaults d) (transform custom);
  testPathIgnorePatterns := ignoreDefaults d ++ testPathIgnorePatterns custom;
  testMatch := testMatch custom
|}.

(** The entries that the framework publishes.  The targets are files of
    the framework's package, which it resolves to absolute paths; they are
    written relative to the package here. *)
Definition nextJestDefaults : Defaults := {|
  mapperDefaults :=
    [("^.+\.module\.(css|sass|scss)$", "next/dist/build/jest/object-proxy.js");
     ("^.+\.(css|sass|scss)$", "next/dist/build/jest/__mocks__/styleMock.js");
     ("^.+\.(png|jpg|jpeg|gif|webp|avif|ico|bmp)$",
      "next/dist/build/jest/__mocks__/fileMock.js");
     ("^.+\.(svg)$", "next/dist/build/jest/__mocks__/fileMock.js");
     ("@next/font/(.*)", "next/dist/build/jest/__mocks__/nextFontMock.js");
     ("next/font/(.*)", "next/dist/build/jest/__mocks__/nextFontMock.js");
     ("^server-only$", "next/dist/build/jest/__mocks__/empty.js")];
  transformDefaults :=
    [("^.+\.(js|jsx|ts|tsx|mjs)$", "next/dist/build/swc/jest-transformer")];
  ignoreDefaults := ["/node_modules/"; "/.next/"]
|}%string.

(** [module.exports], with the published entries. *)
Definition exported : Config := createJestConfig nextJestDefaults customJestConfig.

(** Every pattern of [entries] is a pattern of the fragment, and none is
    found in [name]. *)
Definition no_entry_matches (entries : list (string * string))
  (name : jsstring) : bool :=
  forallb (fun kv => match Regex.parse (fst kv) with
                     | Some _ => negb (Regex.test (fst kv) name)
                     | None => false
                     end) entries.

(** The transformer of a file: the value of the first key, in the order of
    the map, that is found in the file's path. *)
Fixpoint transformer_for (entries : list (string * string)) (file : jsstring)
  : option string :=
  match entries with
  | [] => None
  | (key, transformer) :: others =>
      if Regex.test key file then Some transformer
      else transformer_for others file
  end.

Definition token : jsstring := units "<rootDir>".

(** [pattern.replace(/<rootDir>/g, root)]; [skip] counts the characters of
    a token just replaced that are still to be passed over. *)
Fixpoint replace_token (root : jsstring) (skip : nat) (s : jsstring)
  : jsstring :=
  match s with
  | [] => []
  | c :: t =>
      match skip with
      | S k => replace_token root k t
      | 0 =>
          if starts_with token s
          then root ++ replace_token root (Nat.pred (List.length token)) t
          else c :: replace_token root 0 t
      end
  end.

(** An include pattern that opens with the token, resolved against the
    root: the root, then what follows the token. *)
Definition resolve_root (root pattern : jsstring) : jsstring :=
  match strip_prefix token pattern with
  | Some tail => root ++ tail
  | None => pattern
  end.

(** A character that stands for itself in a regular expression and in a
    glob. *)
Definition plain (c : N) : bool :=
  N.eqb c slash
  || negb (Regex.is_syntax_char c || N.eqb c 33 (* ! *)).

(** The path of a project root: absolute, without a closing separator, and
    made of plain characters. *)
Definition project_root (root : jsstring) : bool :=
  starts_with [slash] root
  && negb (ends_with [slash] root)
  && forallb plain root.

Definition glob_parse (pattern : jsstring) : option (list Glob.gseg) :=
  Glob.sequence (map Glob.parse_segment (segments pattern)).

Definition glob_matches (pattern path : jsstring) : bool :=
  match glob_parse pattern with
  | Some ps => Glob.segs_match ps (segments path)
  | None => false
  end.

Definition regex_parse (pattern : jsstring) : option (Regex.regex * nat) :=
  match Regex.parse_disjunction (3 * List.length pattern + 3) pattern 0 with
  | Some (r, [], g) => Some (r, g)
  | _ => None
  end.

Definition regex_test (pattern input : jsstring) : bool :=
  match regex_parse pattern with
  | Some (r, g) =>
      match Regex.scan r g 0 input with Some _ => true | None => false end
  | None => false
  end.

(** The runner's include test for the project at [root]. *)
Definition test_matched_in (root : jsstring) (cfg : Config) (path : jsstring)
  : bool :=
  existsb (fun g => glob_matches (resolve_root root (units g)) path)
          (testMatch cfg).

(** The runner's ignore test for the project at [root]. *)
Definition path_ignored_in (root : jsstring) (cfg : Config) (path : jsstring)
  : bool :=
  existsb (fun p => regex_test (replace_token root 0 (units p)) path)
          (testPathIgnorePatterns cfg).

(** Every pattern of [patterns] is a pattern of the fragment, and none is
    found in [path]. *)
Definition patterns_absent (root : jsstring) (patterns : list string)
  (path : jsstring) : bool :=
  forallb (fun p => match regex_parse (replace_token root 0 (units p)) with
                    | Some _ =>
                        negb (regex_test (replace_token root 0 (units p)) path)
                    | None => false
                    end) patterns.

(** The text does not open with a quantifier. *)
Definition no_quantifier_ahead (s : jsstring) : bool :=
  match s with
  | c :: _ => negb (Regex.is_quantifier c)
  | [] => true
  end.

(** The segment of a pattern that stands for the text [seg]. *)
Definition literal_segment (seg : jsstring) : Glob.gseg :=
  Glob.Seg (map Glob.GLit seg).

End NextJest.



(** ** The lint configuration: the flat ESLint config *)
Module Eslint.

(** The values that occur in the configuration: literals, references to
    imported bindings, arrays and object literals (in source order). *)
#[local] Unset Elimination Schemes.
Inductive jsval :=
| VStr (s : string)
| VNum (n : N)
| VBool (b : bool)
| VRef (binding : string)
| VArr (elems : list jsval)
| VObj (fields : list (string * jsval)).
#[local] Set Elimination Schemes.

(** The arguments of [typescript.config(...)]: a shared config taken from an
    imported package ([js.configs.recommended]), the spread of an array of
    them ([...typescript.configs.recommended]), or an object literal. *)
Inductive item :=
| Shared (binding : string) (path : list string)
| Spread (binding : string) (path : list string)
| Object (fields : list (string * jsval)).

(** Property lookup in an object literal: the last definition of a key is
    the one that holds. *)
Fixpoint obj_get {A} (key : string) (fields : list (string * A)) : option A :=
  match fields with
  | [] => None
  | (k, v) :: others =>
      match obj_get key others with
      | Some v' => Some v'
      | None => if String.eqb k key then Some v else None
      end
  end.

(** The import declarations: local binding and module specifier. *)
Definition imports : list (string * string) :=
  [("js", "@eslint/js");
   ("typescript", "typescript-eslint");
   ("react", "eslint-plugin-react");
   ("reactHooks", "eslint-plugin-react-hooks");
   ("jsxA11y", "eslint-plugin-jsx-a11y");
   ("importPlugin", "eslint-plugin-import");
   ("next", "@next/eslint-plugin-next");
   ("prettier", "eslint-plugin-prettier")]%string.

Definition plugins_object : list (string * jsval) :=
  [("react", VRef "react");
   ("react-hooks", VRef "reactHooks");
   ("jsx-a11y", VRef "jsxA11y");
   ("import", VRef "importPlugin");
   ("@next/next", VRef "next");
   ("prettier", VRef "prettier")]%string.

Definition languageOptions : jsval :=
  VObj [("ecmaVersion", VStr "latest");
        ("sourceType", VStr "module");
        ("parserOptions",
         VObj [("ecmaFeatures", VObj [("jsx", VBool true)])])]%string.

Definition settings : jsval :=
  VObj [("react", VObj [("version", VStr "detect")]);
        ("import/resolver",
         VObj [("typescript", VObj [("alwaysTryTypes", VBool true)]);
               ("node",
                VObj [("extensions",
                       VArr [VStr ".js"; VStr ".jsx"; VStr ".ts";
                             VStr ".tsx"])])])]%string.

Definition unused_vars_options : jsval :=
  VObj [("argsIgnorePattern", VStr "^_");
        ("varsIgnorePattern", VStr "^_");
        ("caughtErrorsIgnorePattern", VStr "^_")]%string.

Definition import_order_options : jsval :=
  VObj [("groups",
         VArr [VStr "builtin"; VStr "external"; VStr "internal";
               VArr [VStr "parent"; VStr "sibling"];
               VStr "index"; VStr "object"; VStr "type"]);
        ("newlines-between", VStr "always");
        ("pathGroups",
         VArr [VObj [("pattern", VStr "react"); ("group", VStr "external");
                     ("position", VStr "before")];
               VObj [("pattern", VStr "next/**"); ("group", VStr "external");
                     ("position", VStr "before")];
               VObj [("pattern", VStr "@/**"); ("group", VStr "internal")]]);
        ("pathGroupsExcludedImportTypes", VArr [VStr "react"; VStr "next"]);
        ("alphabetize",
         VObj [("order", VStr "asc"); ("caseInsensitive", VBool true)])]%string.

Definition prettier_options : jsval :=
  VObj [("semi", VBool false);
        ("singleQuote", VBool true);
        ("tabWidth", VNum 2);
        ("trailingComma", VStr "es5");
        ("printWidth", VNum 100);
        ("bracketSpacing", VBool true);
        ("arrowParens", VStr "always");
        ("endOfLine", VStr "lf")]%string.

Definition rules_object : list (string * jsval) :=
  [("@typescript-eslint/no-unused-vars",
    VArr [VStr "error"; unused_vars_options]);
   ("@typescript-eslint/no-explicit-any", VStr "warn");
   ("@typescript-eslint/explicit-function-return-type", VStr "off");
   ("@typescript-eslint/explicit-module-boundary-types", VStr "off");
   ("@typescript-eslint/no-empty-interface", VStr "off");
   ("@typescript-eslint/no-non-null-assertion", VStr "warn");
   ("@typescript-eslint/consistent-type-imports",
    VArr [VStr "error";
          VObj [("prefer", VStr "type-imports");
                ("fixStyle", VStr "inline-type-imports")]]);
   ("react/react-in-jsx-scope", VStr "off");
   ("react/prop-types", VStr "off");
   ("react/jsx-uses-react", VStr "off");
   ("react/jsx-uses-vars", VStr "error");
   ("react/jsx-no-target-blank", VStr "error");
   ("react/display-name", VStr "off");
   ("react/jsx-sort-props",
    VArr [VStr "warn";
          VObj [("callbacksLast", VBool true);
                ("shorthandFirst", VBool true);
                ("noSortAlphabetically", VBool false);
                ("reservedFirst", VBool true)]]);
   ("react-hooks/rules-of-hooks", VStr "error");
   ("react-hooks/exhaustive-deps", VStr "warn");
   ("@next/next/no-html-link-for-pages", VStr "error");
   ("@next/next/no-img-element", VStr "error");
   ("@next/next/no-sync-scripts", VStr "error");
   ("@next/next/no-head-element", VStr "error");
   ("@next/next/no-unwanted-polyfillio", VStr "error");
   ("@next/next/no-page-custom-font", VStr "error");
   ("@next/next/no-duplicate-head", VStr "error");
   ("import/order", VArr [VStr "error"; import_order_options]);
   ("import/no-duplicates", VStr "error");
   ("import/no-unresolved", VStr "error");
   ("import/no-cycle", VStr "warn");
   ("import/newline-after-import", VStr "error");
   ("jsx-a11y/alt-text", VStr "error");
   ("jsx-a11y/anchor-is-valid", VStr "error");
   ("jsx-a11y/aria-props", VStr "error");
   ("jsx-a11y/aria-proptypes", VStr "error");
   ("jsx-a11y/aria-unsupported-elements", VStr "error");
   ("jsx-a11y/role-has-required-aria-props", VStr "error");
   ("jsx-a11y/role-supports-aria-props", VStr "error");
   ("no-console",
    VArr [VStr "warn"; VObj [("allow", VArr [VStr "warn"; VStr "error"])]]);
   ("no-debugger", VStr "error");
   ("no-alert", VStr "warn");
   ("prefer-const", VStr "error");
   ("no-var", VStr "error");
   ("object-shorthand", VStr "error");
   ("no-nested-ternary", VStr "warn");
   ("no-unneeded-ternary", VStr "error");
   ("prefer-template", VStr "error");
   ("template-curly-spacing", VArr [VStr "error"; VStr "never"]);
   ("arrow-body-style", VArr [VStr "error"; VStr "as-needed"]);
   ("prettier/prettier", VArr [VStr "error"; prettier_options])]%string.

Definition ignores_array : list string :=
  ["**/node_modules/**";
   "**/.next/**";
   "**/out/**";
   "**/build/**";
   "**/dist/**";
   "**/public/**";
   "**/.vercel/**";
   "**/.turbo/**";
   "**/coverage/**";
   "**/*.config.js";
   "**/*.config.mjs";
   "**/*.config.ts";
   "**/next-env.d.ts";
   "**/*.test.ts";
   "**/*.test.tsx";
   "**/tests/**";
   "**/__tests__/**"]%string.

(** The default export.  [typescript.config] is the typed helper of
    typescript-eslint that returns its arguments as one flat array. *)
Definition eslintConfig : list item :=
  [Shared "js" ["configs"; "recommended"];
   Spread "typescript" ["configs"; "recommended"];
   Object [("plugins", VObj plugins_object)];
   Object [("files", VArr [VStr "**/*.{js,jsx,ts,tsx,mjs}"]);
           ("languageOptions", languageOptions);
           ("settings", settings);
           ("rules", VObj rules_object)];
   Object [("ignores", VArr (map VStr ignores_array))]]%string.

(** The fields of the object stored under [key] in the object literals of
    the config, in order. *)
Definition object_field (key : string) (it : item) : list (string * jsval) :=
  match it with
  | Object fields =>
      match obj_get key fields with
      | Some (VObj l) => l
      | _ => []
      end
  | _ => []
  end.

Definition rules (cfg : list item) : list (string * jsval) :=
  flat_map (object_field "rules") cfg.

Definition plugins (cfg : list item) : list (string * jsval) :=
  flat_map (object_field "plugins") cfg.

(** The setting of a rule: later config objects override earlier ones. *)
Definition rule_setting (cfg : list item) (name : string) : option jsval :=
  obj_get name (rules cfg).

Definition strings_of (l : list jsval) : list string :=
  flat_map (fun v => match v with VStr s => [s] | _ => [] end) l.

(** The patterns of the [ignores] arrays. *)
Definition ignores (cfg : list item) : list string :=
  flat_map (fun it => match it with
                      | Object fields =>
                          match obj_get "ignores" fields with
                          | Some (VArr l) => strings_of l
                          | _ => []
                          end
                      | _ => []
                      end) cfg.

(** A file is left out of linting when some [ignores] glob matches it. *)
Definition ignored (cfg : list item) (path : jsstring) : bool :=
  existsb (fun g => Glob.matches g path) (ignores cfg).

Definition is_severity (s : string) : bool :=
  String.eqb s "off" || String.eqb s "warn" || String.eqb s "error".

(** A rule's value is a severity, or an array that starts with one. *)
Definition severity_of (v : jsval) : option string :=
  match v with
  | VStr s => if is_severity s then Some s else None
  | VArr (VStr s :: _) => if is_severity s then Some s else None
  | _ => None
  end.

(** The entry of the rules map has a well-formed value. *)
Definition has_severity (entry : string * jsval) : bool :=
  match severity_of (snd entry) with Some _ => true | None => false end.

Definition module_of (binding : string) : list string :=
  match obj_get binding imports with Some m => [m] | None => [] end.

(** The packages whose shared configs open the array. *)
Definition base_sources (cfg : list item) : list string :=
  flat_map (fun it => match it with
                      | Shared b _ | Spread b _ => module_of b
                      | Object _ => []
                      end) cfg.

(** The packages behind the entries of the plugins map. *)
Definition plugin_sources (cfg : list item) : list string :=
  flat_map (fun kv => match snd kv with
                      | VRef b => module_of b
                      | _ => []
                      end) (plugins cfg).

(** The distinct rule-set sources composed into the config. *)
Definition rule_set_sources (cfg : list item) : list string :=
  nodup string_dec (base_sources cfg ++ plugin_sources cfg).

(** The patterns of the [files] arrays: the files that the object with the
    language options, the settings and the rules is written for. *)
Definition files (cfg : list item) : list string :=
  flat_map (fun it => match it with
                      | Object fields =>
                          match obj_get "files" fields with
                          | Some (VArr l) => strings_of l
                          | _ => []
                          end
                      | _ => []
                      end) cfg.

(** The rules of the config are meant for [path]: some [files] glob
    matches it. *)
Definition selected (cfg : list item) (path : jsstring) : bool :=
  existsb (fun g => Glob.matches g path) (files cfg).

(** The namespace of a rule name: what comes before its last ['/'], empty
    for a core rule. *)
Definition rule_namespace (name : string) : jsstring :=
  join (removelast (segments (units name))).

(** The namespace belongs to an entry of the plugins map. *)
Definition registered (cfg : list item) (ns : jsstring) : bool :=
  existsb (fun kv => JsString.eqb (units (fst kv)) ns) (plugins cfg).

(** The rule is a core rule, a rule of the plugin that the typescript-eslint
    shared config brings, or a rule of a plugin of the plugins map. *)
Definition namespace_known (entry : string * jsval) : bool :=
  let ns := rule_namespace (fst entry) in
  JsString.eqb ns []
  || JsString.eqb ns (units "@typescript-eslint")
  || registered eslintConfig ns.

End Eslint.


(** Replaces the code units of every string literal in the goal by their
    values. *)
Ltac eval_units :=
  repeat match goal with
         | |- context [units ?s] =>
             let u := eval vm_compute in (units s) in
             change (units s) with u
         end.

(** * Properties *)

(** ** Strings and path segments *)
Section StringFacts.

Lemma eqb_eq (a b : jsstring) : JsString.eqb a b = true <-> a = b.
Proof.
  revert b; induction a as [|x a IH]; intros [|y b]; simpl;
    try (split; [discriminate | discriminate]); try tauto.
  rewrite andb_true_iff, N.eqb_eq, IH.
  split; [intros [-> ->]; reflexivity | intros H; inversion H; auto].
Qed.

Lemma strip_prefix_spec (p s t : jsstring) :
  strip_prefix p s = Some t <-> s = p ++ t.
Proof.
  revert s; induction p as [|x p IH]; intros s; simpl.
  - split; [intros H; inversion H; reflexivity | intros ->; reflexivity].
  - destruct s as [|y s]; [split; discriminate|].
    destruct (N.eqb_spec x y) as [->|Hne].
    + rewrite IH. split; [intros ->; reflexivity | intros H; inversion H; auto].
    + split; [discriminate | intros H; inversion H; congruence].
Qed.

Lemma strip_prefix_app (p t : jsstring) : strip_prefix p (p ++ t) = Some t.
Proof. apply strip_prefix_spec; reflexivity. Qed.

Lemma starts_with_spec (p s : jsstring) :
  starts_with p s = true <-> exists t, s = p ++ t.
Proof.
  unfold starts_with. destruct (strip_prefix p s) as [t|] eqn:E.
  - apply strip_prefix_spec in E. split; [exists t; exact E | reflexivity].
  - split; [discriminate|]. intros [t Ht].
    apply strip_prefix_spec in Ht. congruence.
Qed.

Lemma ends_with_spec (suf s : jsstring) :
  ends_with suf s = true <-> exists pre, s = pre ++ suf.
Proof.
  unfold ends_with. rewrite starts_with_spec. split.
  - intros [t Ht]. exists (rev t).
    rewrite <- (rev_involutive s), Ht, rev_app_distr, rev_involutive.
    reflexivity.
  - intros [pre ->]. exists (rev pre). apply rev_app_distr.
Qed.

Lemma segments_not_nil (s : jsstring) : segments s <> [].
Proof.
  destruct s as [|c s]; simpl; [discriminate|].
  destruct (N.eqb c slash); [discriminate|].
  destruct (segments s); discriminate.
Qed.

Lemma join_cons (a : jsstring) (l : list jsstring) :
  l <> [] -> join (a :: l) = a ++ slash :: join l.
Proof. destruct l; [congruence | reflexivity]. Qed.

(** Splitting a path into segments loses nothing. *)
Lemma join_segments (s : jsstring) : join (segments s) = s.
Proof.
  induction s as [|c s IH]; [reflexivity|].
  simpl segments. destruct (N.eqb_spec c slash) as [->|Hne].
  - rewrite join_cons by apply segments_not_nil. rewrite IH. reflexivity.
  - pose proof (segments_not_nil s) as Hnn.
    destruct (segments s) as [|h t]; [congruence|].
    destruct t as [|h' t]; simpl in *; congruence.
Qed.

Lemma segments_app_slash (a b : jsstring) :
  segments (a ++ slash :: b) = segments a ++ segments b.
Proof.
  induction a as [|c a IH]; [reflexivity|].
  simpl. destruct (N.eqb c slash).
  - rewrite IH. reflexivity.
  - rewrite IH. pose proof (segments_not_nil a) as Hnn.
    destruct (segments a); [congruence | reflexivity].
Qed.

Lemma segments_no_slash (s : jsstring) :
  no_slash s = true -> segments s = [s].
Proof.
  induction s as [|c s IH]; [reflexivity|].
  simpl. intros H. apply andb_true_iff in H as [Hc Hs].
  apply negb_true_iff in Hc. rewrite Hc, (IH Hs). reflexivity.
Qed.

(** A suffix without separator belongs to the last segment. *)
Lemma segments_app_no_slash (pre suf : jsstring) :
  no_slash suf = true ->
  exists dirs base, segments (pre ++ suf) = dirs ++ [base ++ suf].
Proof.
  intros Hs. induction pre as [|c pre (dirs & base & IH)].
  - exists [], []. simpl. apply segments_no_slash, Hs.
  - simpl. destruct (N.eqb c slash).
    + exists ([] :: dirs), base. rewrite IH. reflexivity.
    + rewrite IH. destruct dirs as [|d dirs].
      * exists [], (c :: base). reflexivity.
      * exists ((c :: d) :: dirs), base. reflexivity.
Qed.

Lemma existsb_removelast_split (d : jsstring) (l : list jsstring) :
  existsb (JsString.eqb d) (removelast l) = true ->
  exists before after, after <> [] /\ l = before ++ d :: after.
Proof.
  intros H. apply existsb_exists in H as (x & Hin & Hx).
  apply eqb_eq in Hx. subst x.
  destruct (exists_last (l := l)) as (l0 & z & ->).
  { intros ->. simpl in Hin. exact Hin. }
  rewrite removelast_last in Hin.
  apply in_split in Hin as (before & mid & ->).
  exists before, (mid ++ [z]). split.
  - destruct mid; discriminate.
  - rewrite <- app_assoc. reflexivity.
Qed.

End StringFacts.

(** ** Glob matching *)
Section GlobFacts.
Import Glob.

Lemma seg_match_star (ts : list gtok) (s : jsstring) :
  seg_match (GStar :: ts) s
  = seg_match ts s
    || match s with [] => false | _ :: s' => seg_match (GStar :: ts) s' end.
Proof. destruct s; reflexivity. Qed.

Lemma segs_match_globstar (ps : list gseg) (fs : list jsstring) :
  segs_match (GlobStar :: ps) fs
  = segs_match ps fs
    || match fs with
       | [] => false
       | _ :: fs' => segs_match (GlobStar :: ps) fs'
       end.
Proof. destruct fs; reflexivity. Qed.

(** A segment made of literal characters matches that text only. *)
Lemma seg_match_literal (l s : jsstring) :
  seg_match (map GLit l) s = true <-> s = l.
Proof.
  revert s; induction l as [|c l IH]; intros [|c' s]; simpl;
    try (split; [discriminate | discriminate]); try tauto.
  rewrite andb_true_iff, N.eqb_eq, IH.
  split; [intros [-> ->]; reflexivity | intros H; inversion H; auto].
Qed.

(** [*] absorbs any text in front of what the other tokens match. *)
Lemma seg_match_star_skip (ts : list gtok) (a b : jsstring) :
  seg_match ts b = true -> seg_match (GStar :: ts) (a ++ b) = true.
Proof.
  intros H. induction a as [|c a IH].
  - simpl app. rewrite seg_match_star, H. reflexivity.
  - change ((c :: a) ++ b) with (c :: a ++ b).
    rewrite seg_match_star, IH. apply orb_true_r.
Qed.

(** [**] absorbs any segments in front of what the other segments match. *)
Lemma segs_match_globstar_skip (ps : list gseg) (a b : list jsstring) :
  segs_match ps b = true -> segs_match (GlobStar :: ps) (a ++ b) = true.
Proof.
  intros H. induction a as [|c a IH].
  - simpl app. rewrite segs_match_globstar, H. reflexivity.
  - change ((c :: a) ++ b) with (c :: a ++ b).
    rewrite segs_match_globstar, IH. apply orb_true_r.
Qed.

Lemma segs_match_globstar_all (fs : list jsstring) :
  segs_match [GlobStar] fs = true.
Proof.
  rewrite <- (app_nil_r fs). apply segs_match_globstar_skip. reflexivity.
Qed.

(** What [**] is followed by must still be matched by some segment. *)
Lemma segs_match_globstar_seg (ts : list gtok) (ps : list gseg)
  (fs : list jsstring) :
  segs_match (GlobStar :: Seg ts :: ps) fs = true -> fs <> [].
Proof. intros H ->. discriminate. Qed.

(** A pattern that opens with two literal segments and goes on matches only
    paths that open with these two directories. *)
Lemma segs_match_literal_dirs (a b : jsstring) (ts : list gtok)
  (ps : list gseg) (path : jsstring) :
  segs_match (Seg (map GLit a) :: Seg (map GLit b) :: GlobStar :: Seg ts :: ps)
             (segments path) = true ->
  starts_with (a ++ slash :: b ++ [slash]) path = true.
Proof.
  intros H. apply starts_with_spec.
  destruct (segments path) as [|f1 [|f2 fs]] eqn:E; simpl in H;
    try discriminate.
  { rewrite andb_false_r in H. discriminate. }
  apply andb_true_iff in H as [H1 H]. apply andb_true_iff in H as [H2 H].
  apply seg_match_literal in H1, H2. subst f1 f2.
  assert (Hfs : fs <> []) by (intros ->; discriminate).
  exists (join fs). rewrite <- (join_segments path), E.
  rewrite join_cons by discriminate. rewrite join_cons by exact Hfs.
  rewrite <- app_assoc. simpl. rewrite <- app_assoc. reflexivity.
Qed.

End GlobFacts.

(** ** Regular-expression matching *)
Section RegexFacts.
Import Regex.

Lemma moved_0 (st : mstate) : moved st 0 (rest st) = st.
Proof. destruct st; unfold moved; simpl. rewrite Nat.add_0_r. reflexivity. Qed.

Lemma moved_advance (st : mstate) (u : jsstring) (n : nat) (t : jsstring) :
  moved (advance st u) n t = moved st (S n) t.
Proof. unfold moved, advance; simpl. rewrite Nat.add_succ_r. reflexivity. Qed.

(** Literal text is matched by stripping it from the input. *)
Lemma run_chars (l : jsstring) (r : regex) (st : mstate) (k : continuation) :
  run (chars l r) st k
  = match strip_prefix l (rest st) with
    | Some t => run r (moved st (List.length l) t) k
    | None => None
    end.
Proof.
  revert st; induction l as [|c l IH]; intros st.
  - simpl. rewrite moved_0. reflexivity.
  - simpl. destruct (rest st) as [|c' t]; [reflexivity|].
    destruct (N.eqb c c'); [|reflexivity].
    rewrite IH. simpl rest. destruct (strip_prefix l t); [|reflexivity].
    rewrite moved_advance. reflexivity.
Qed.

Lemma run_any_cons (st : mstate) (k : continuation) (c : N) (t : jsstring) :
  rest st = c :: t -> is_line_terminator c = false ->
  run Any st k = k (advance st t).
Proof. intros Hr Hc. simpl. rewrite Hr, Hc. reflexivity. Qed.

(** One more round of a repetition whose step consumes a character. *)
Lemma iterate_any_cons (st : mstate) (n : nat) (k : continuation) (c : N)
  (t : jsstring) :
  rest st = c :: t -> is_line_terminator c = false ->
  iterate (run Any) (S n) st k
  = match iterate (run Any) n (advance st t) k with
    | Some res => Some res
    | None => k st
    end.
Proof.
  intros Hr Hc. cbn [iterate]. rewrite (run_any_cons _ _ _ _ Hr Hc).
  cbn [rest advance]. rewrite Hr.
  replace (List.length t <? List.length (c :: t)) with true
    by (symmetry; apply Nat.ltb_lt; simpl; lia).
  reflexivity.
Qed.

(** Greedy [.*] in front of a continuation that accepts at the end of the
    input: on input free of line terminators it takes everything. *)
Lemma iterate_any_all (s : jsstring) :
  forall (st : mstate) (n : nat) (k : continuation) (res : mstate),
    rest st = s ->
    no_line_terminator s = true ->
    List.length s < n ->
    k (moved st (List.length s) []) = Some res ->
    iterate (run Any) n st k = Some res.
Proof.
  induction s as [|c s IH]; intros st n k res Hrest Hs Hn Hk.
  - destruct n as [|n]; [inversion Hn|].
    change (List.length (@nil N)) with 0 in Hk.
    rewrite <- Hrest, moved_0 in Hk.
    simpl. rewrite Hrest. exact Hk.
  - destruct n as [|n]; [inversion Hn|].
    simpl in Hs. apply andb_true_iff in Hs as [Hc Hs].
    apply negb_true_iff in Hc.
    rewrite (iterate_any_cons _ _ _ _ _ Hrest Hc).
    rewrite (IH (advance st s) n k res); trivial.
    + simpl in Hn. lia.
    + rewrite moved_advance. exact Hk.
Qed.

(** Greedy [.*] backtracks: if the continuation accepts after some prefix
    free of line terminators, the repetition succeeds. *)
Lemma iterate_any_some (s1 t : jsstring) :
  forall (st : mstate) (n : nat) (k : continuation),
    rest st = s1 ++ t ->
    no_line_terminator s1 = true ->
    List.length s1 < n ->
    k (moved st (List.length s1) t) <> None ->
    iterate (run Any) n st k <> None.
Proof.
  induction s1 as [|c s1 IH]; intros st n k Hrest Hs Hn Hk.
  - destruct n as [|n]; [inversion Hn|].
    change (List.length (@nil N)) with 0 in Hk.
    simpl in Hrest. rewrite <- Hrest, moved_0 in Hk.
    cbn [iterate]. destruct (run Any st _); [discriminate | exact Hk].
  - destruct n as [|n]; [inversion Hn|].
    simpl in Hs. apply andb_true_iff in Hs as [Hc Hs].
    apply negb_true_iff in Hc.
    assert (Hit : iterate (run Any) n (advance st (s1 ++ t)) k <> None).
    { apply IH; trivial.
      - simpl in Hn. lia.
      - rewrite moved_advance. exact Hk. }
    change ((c :: s1) ++ t) with (c :: s1 ++ t) in Hrest.
    rewrite (iterate_any_cons _ _ _ _ _ Hrest Hc).
    destruct (iterate (run Any) n (advance st (s1 ++ t)) k);
      [discriminate | congruence].
Qed.

(** A pattern that opens with [^] cannot match past index 0. *)
Lemma scan_bol_later (r : regex) (groups : nat) (suffix : jsstring) :
  forall i, 0 < i -> scan (Seq Bol r) groups i suffix = None.
Proof.
  induction suffix as [|c t IH]; intros i Hi.
  - destruct i; [inversion Hi | reflexivity].
  - cbn [scan]. rewrite IH by lia.
    destruct i; [inversion Hi | reflexivity].
Qed.

Lemma attempt_chars_none (l : jsstring) (r : regex) (groups i : nat)
  (suffix : jsstring) :
  starts_with l suffix = false -> attempt (chars l r) groups i suffix = None.
Proof.
  unfold starts_with, attempt. rewrite run_chars. simpl rest.
  destruct (strip_prefix l suffix); [discriminate | reflexivity].
Qed.

(** A pattern that opens with the literal text [l] is found only where [l]
    occurs. *)
Lemma scan_chars_none (l : jsstring) (r : regex) (groups : nat)
  (suffix : jsstring) :
  forall i,
    forallb (fun suf => negb (starts_with l suf)) (tails suffix) = true ->
    scan (chars l r) groups i suffix = None.
Proof.
  induction suffix as [|c t IH]; intros i H.
  - simpl in H. rewrite andb_true_r in H. apply negb_true_iff in H.
    cbn [scan]. rewrite attempt_chars_none by exact H. reflexivity.
  - cbn [tails forallb] in H. apply andb_true_iff in H as [H0 H].
    apply negb_true_iff in H0.
    cbn [scan]. rewrite attempt_chars_none by exact H0. apply IH, H.
Qed.

Lemma starts_with_app_false (a b s : jsstring) :
  starts_with a s = false -> starts_with (a ++ b) s = false.
Proof.
  intros H. destruct (starts_with (a ++ b) s) eqn:E; [|reflexivity].
  apply starts_with_spec in E as [t ->].
  rewrite <- app_assoc in H.
  assert (starts_with a (a ++ b ++ t) = true)
    by (apply starts_with_spec; eexists; reflexivity).
  congruence.
Qed.

End RegexFacts.

(** ** The test-runner configuration *)
Section JestProperties.
Import Glob Regex Jest.

Lemma parse_testMatch_dunder :
  Glob.parse "<rootDir>/src/**/__tests__/**/*.{js,jsx,ts,tsx}"
  = Some [Seg (map GLit (units "<rootDir>")); Seg (map GLit (units "src"));
          GlobStar; Seg (map GLit (units "__tests__")); GlobStar;
          Seg [GStar; GLit 46;
               GBrace [units "js"; units "jsx"; units "ts"; units "tsx"]]].
Proof. reflexivity. Qed.

Lemma parse_testMatch_suffix :
  Glob.parse "<rootDir>/src/**/*.{spec,test}.{js,jsx,ts,tsx}"
  = Some [Seg (map GLit (units "<rootDir>")); Seg (map GLit (units "src"));
          GlobStar;
          Seg [GStar; GLit 46; GBrace [units "spec"; units "test"]; GLit 46;
               GBrace [units "js"; units "jsx"; units "ts"; units "tsx"]]].
Proof. reflexivity. Qed.

(** Both include patterns open with the root and the source directory. *)
Lemma test_matched_src_prefix (path : jsstring) :
  test_matched customJestConfig path = true ->
  starts_with (units "<rootDir>/src/") path = true.
Proof.
  unfold test_matched. cbn [testMatch customJestConfig existsb].
  rewrite orb_false_r. unfold Glob.matches.
  rewrite parse_testMatch_dunder, parse_testMatch_suffix.
  intros H. apply orb_true_iff in H as [H|H];
    apply segs_match_literal_dirs in H; exact H.
Qed.

(** C2. Test scanning is restricted to the source directory: every path
    that some [testMatch] pattern matches starts with ["<rootDir>/src/"]. *)
Theorem test_match_under_src (path : jsstring) :
  test_matched customJestConfig path = true ->
  starts_with (units "<rootDir>/src/") path = true.
Proof. apply test_matched_src_prefix. Qed.

Lemma test_match_under_src_witness :
  test_matched customJestConfig
    (units "<rootDir>/src/components/__tests__/Button.test.tsx") = true
  /\ starts_with (units "<rootDir>/src/")
       (units "<rootDir>/src/components/__tests__/Button.test.tsx") = true.
Proof.
  split; [reflexivity|].
  apply (test_match_under_src
           (units "<rootDir>/src/components/__tests__/Button.test.tsx")).
  reflexivity.
Defined.

(** C3. The ignore list contains the standalone-scripts directory:
    ["<rootDir>/tests/"] is an entry of [testPathIgnorePatterns]. *)
Theorem ignore_list_has_tests_dir :
  In "<rootDir>/tests/"%string (testPathIgnorePatterns customJestConfig).
Proof. simpl. tauto. Qed.

(** C6. The runner is pointed at the DOM-simulation environment and one
    setup file is registered: [testEnvironment] is
    ["jest-environment-jsdom"] and [setupFilesAfterEnv] is the one-element
    list of ["<rootDir>/jest.setup.ts"]. *)
Theorem environment_and_setup :
  testEnvironment customJestConfig = "jest-environment-jsdom"%string
  /\ setupFilesAfterEnv customJestConfig = ["<rootDir>/jest.setup.ts"%string].
Proof. split; reflexivity. Qed.




Lemma scan_attempt (r : regex) (g i : nat) (input : jsstring)
  (m : list (option jsstring)) :
  attempt r g i input = Some m -> scan r g i input = Some m.
Proof. intros H. destruct input; cbn [scan]; rewrite H; reflexivity. Qed.

Lemma scan_attempt_some (r : regex) (g i : nat) (input : jsstring) :
  attempt r g i input <> None -> scan r g i input <> None.
Proof.
  intros H. destruct (attempt r g i input) as [m|] eqn:E; [|congruence].
  rewrite (scan_attempt _ _ _ _ _ E). discriminate.
Qed.

(** An anchored pattern that opens with literal text finds nothing in an
    input that does not start with that text. *)
Lemma scan_anchored_none (l : jsstring) (r : regex) (g : nat)
  (input : jsstring) :
  starts_with l input = false ->
  scan (Seq Bol (chars l r)) g 0 input = None.
Proof.
  intros H.
  assert (Ha : attempt (Seq Bol (chars l r)) g 0 input = None).
  { unfold attempt. cbn [run pos Nat.eqb]. rewrite run_chars. cbn [rest].
    unfold starts_with in H. destruct (strip_prefix l input);
      [discriminate | reflexivity]. }
  destruct input as [|c t]; cbn [scan]; rewrite Ha; [reflexivity|].
  apply scan_bol_later. lia.
Qed.

Lemma parse_alias :
  Regex.parse "^@/(.*)$"
  = Some (Seq Bol
            (chars (units "@/")
               (Seq (Group 1 (Seq (Star Any) Empty)) (Seq Eol Empty))), 1).
Proof. reflexivity. Qed.

(** The alias pattern on a specifier that starts with ["@/"]: the match
    array holds the specifier and, as first capture, what follows the
    alias. *)
Lemma exec_alias (s : jsstring) :
  no_line_terminator s = true ->
  Regex.exec "^@/(.*)$" (units "@/" ++ s)
  = Some [Some (units "@/" ++ s); Some s].
Proof.
  intros Hs. unfold Regex.exec. rewrite parse_alias.
  apply scan_attempt. unfold attempt.
  cbn [run pos Nat.eqb]. rewrite run_chars. cbn [rest].
  rewrite strip_prefix_app. cbn [run].
  erewrite (iterate_any_all s);
    [ | reflexivity | exact Hs | cbn [moved rest]; lia | reflexivity ].
  cbn [moved pos caps rest repeat set_nth]. eval_units.
  cbn [List.length app Nat.add Nat.sub firstn].
  rewrite Nat.sub_0_r, firstn_all. reflexivity.
Qed.

Lemma parse_ts_key :
  Regex.parse "^.+\.(ts|tsx)$"
  = Some (Seq Bol
            (Seq (Plus Any)
               (chars (units ".")
                  (Seq (Group 1 (Alt (chars (units "ts") Empty)
                                     (chars (units "tsx") Empty)))
                       (Seq Eol Empty)))), 1).
Proof. reflexivity. Qed.

(** The key of the transform map is found in every name made of a
    non-empty stem on one line and one of the two extensions. *)
Lemma ts_key_matches (c : N) (stem ext : jsstring) :
  is_line_terminator c = false ->
  no_line_terminator stem = true ->
  In ext [units ".ts"; units ".tsx"] ->
  Regex.test "^.+\.(ts|tsx)$" (c :: stem ++ ext) = true.
Proof.
  intros Hc Hs Hext. unfold Regex.test, Regex.exec. rewrite parse_ts_key.
  match goal with
  | |- match ?x with Some _ => true | None => false end = true =>
      assert (H : x <> None); [| destruct x; [reflexivity | congruence]]
  end.
  apply scan_attempt_some. unfold attempt.
  match goal with
  | |- match ?x with Some _ => _ | None => None end <> None =>
      assert (H : x <> None); [| destruct x; [discriminate | congruence]]
  end.
  match goal with
  | |- run (Seq Bol (Seq (Plus Any) ?r)) ?st Some <> None =>
      change (run Any st
                (fun st' =>
                   iterate (run Any) (S (List.length (rest st'))) st'
                           (fun st'' => run r st'' Some)) <> None)
  end.
  rewrite (run_any_cons _ _ c (stem ++ ext)) by (trivial; reflexivity).
  apply (iterate_any_some stem ext); trivial.
  - cbn [advance rest]. rewrite length_app. lia.
  - destruct Hext as [<-|[<-|[]]]; rewrite run_chars; eval_units;
      cbn; discriminate.
Qed.

(** C5, as amended. TypeScript files are mapped to the TypeScript-aware
    transform: for every file name made of a non-empty stem free of line
    terminators followed by [".ts"] or [".tsx"], some key of the transform
    map matches it, and that key is assigned ['ts-jest']. *)
Theorem transform_covers_typescript (stem file : jsstring) :
  stem <> [] ->
  no_line_terminator stem = true ->
  file = stem ++ units ".ts" \/ file = stem ++ units ".tsx" ->
  exists key,
    In (key, "ts-jest"%string) (transform customJestConfig)
    /\ transform_key_matches key file = true.
Proof.
  intros Hne Hs Hfile. exists "^.+\.(ts|tsx)$"%string.
  split; [simpl; tauto|]. unfold transform_key_matches.
  destruct stem as [|c stem]; [congruence|].
  simpl in Hs. apply andb_true_iff in Hs as [Hc Hs].
  apply negb_true_iff in Hc.
  destruct Hfile as [-> | ->]; apply ts_key_matches; trivial; simpl; tauto.
Qed.

Lemma transform_covers_typescript_witness :
  (units "src/app/page" <> []
   /\ no_line_terminator (units "src/app/page") = true
   /\ (units "src/app/page.tsx" = units "src/app/page" ++ units ".ts"
       \/ units "src/app/page.tsx" = units "src/app/page" ++ units ".tsx"))
  /\ exists key,
       In (key, "ts-jest"%string) (transform customJestConfig)
       /\ transform_key_matches key (units "src/app/page.tsx") = true.
Proof.
  split; [split; [discriminate | split; [reflexivity | right; reflexivity]]|].
  apply (transform_covers_typescript (units "src/app/page")
           (units "src/app/page.tsx")).
  - discriminate.
  - reflexivity.
  - right; reflexivity.
Defined.

(** C5, as stated, fails: the key asks for at least one character in front
    of the extension, so the name [".ts"], which ends in [".ts"], is
    matched by no key of the transform map. *)
Lemma transform_misses_bare_extension :
  ends_with (units ".ts") (units ".ts") = true
  /\ ~ exists key,
         In (key, "ts-jest"%string) (transform customJestConfig)
         /\ transform_key_matches key (units ".ts") = true.
Proof.
  split; [reflexivity|]. intros (key & Hin & Hm).
  simpl in Hin. destruct Hin as [Hin|[]]. inversion Hin; subst key.
  vm_compute in Hm. discriminate.
Qed.

(** The same key fails on a name with a line feed in its stem, whatever
    comes in front of it. *)
Lemma transform_misses_multiline_name :
  transform_key_matches "^.+\.(ts|tsx)$" (units "/app/a" ++ [10%N] ++ units "b.ts")
  = false.
Proof. reflexivity. Qed.

(** The runner's view of a few paths of the template. *)
Example component_test_is_run :
  test_matched customJestConfig
    (units "<rootDir>/src/components/__tests__/Button.tsx") = true
  /\ path_ignored customJestConfig
       (units "<rootDir>/src/components/__tests__/Button.tsx") = false.
Proof. split; reflexivity. Qed.

Example standalone_script_is_skipped :
  test_matched customJestConfig (units "<rootDir>/tests/smoke.test.ts") = false
  /\ path_ignored customJestConfig (units "<rootDir>/tests/smoke.test.ts")
     = true.
Proof. split; reflexivity. Qed.

Example stylesheet_is_no_test :
  test_matched customJestConfig (units "<rootDir>/src/__tests__/theme.css")
  = false.
Proof. reflexivity. Qed.

End JestProperties.

(** ** The lint configuration *)
Section EslintProperties.
Import Glob Eslint.

(** C1, as amended. The lint configuration composes exactly eight
    off-the-shelf rule-set sources: the two packages whose recommended
    configs open the array and the six entries of the plugins map, all
    distinct. *)
Theorem eight_rule_set_sources :
  List.length (base_sources eslintConfig) = 2
  /\ List.length (plugin_sources eslintConfig) = 6
  /\ List.length (rule_set_sources eslintConfig) = 8.
Proof. repeat split. Qed.

(** C1, as stated, fails: the sources composed into the config are not
    twelve. *)
Lemma rule_set_sources_not_twelve :
  List.length (rule_set_sources eslintConfig) <> 12.
Proof. vm_compute. discriminate. Qed.

(** C4. The React-in-scope rule is disabled: the setting of
    ['react/react-in-jsx-scope'] in the rules of the config is ['off']. *)
Theorem react_in_jsx_scope_off :
  rule_setting eslintConfig "react/react-in-jsx-scope" = Some (VStr "off").
Proof. reflexivity. Qed.

Lemma all_rules_have_severity :
  forallb has_severity (rules eslintConfig) = true.
Proof. reflexivity. Qed.

(** C7. Every rule of the config is assigned a severity: the value of each
    entry of the rules map is ['off'], ['warn'] or ['error'], or an array
    whose first element is one of them. *)
Theorem every_rule_has_severity (name : string) (value : jsval) :
  In (name, value) (rules eslintConfig) ->
  exists sev, severity_of value = Some sev /\ is_severity sev = true.
Proof.
  intros Hin.
  pose proof (proj1 (forallb_forall _ _) all_rules_have_severity _ Hin) as H.
  unfold has_severity in H. simpl snd in H.
  destruct (severity_of value) as [sev|] eqn:E; [|discriminate].
  exists sev. split; [reflexivity|].
  unfold severity_of in E.
  destruct value as [s | | | | [|[s | | | | |] ?] |]; try discriminate;
    destruct (is_severity s) eqn:Es; inversion E; subst; exact Es.
Qed.

Lemma every_rule_has_severity_witness :
  In ("no-console"%string,
      VArr [VStr "warn"; VObj [("allow"%string,
                                VArr [VStr "warn"; VStr "error"])]])
     (rules eslintConfig)
  /\ exists sev,
       severity_of
         (VArr [VStr "warn"; VObj [("allow"%string,
                                    VArr [VStr "warn"; VStr "error"])]])
       = Some sev
       /\ is_severity sev = true.
Proof.
  assert (Hin : In ("no-console"%string,
                    VArr [VStr "warn";
                          VObj [("allow"%string,
                                 VArr [VStr "warn"; VStr "error"])]])
                   (rules eslintConfig)).
  { do 35 right. left. reflexivity. }
  split; [exact Hin|].
  exact (every_rule_has_severity _ _ Hin).
Defined.

(** A pattern [**/*suffix] matches every path that ends in the suffix. *)
Lemma suffix_glob_matches (pattern : string) (suf pre : jsstring) :
  Glob.parse pattern = Some [GlobStar; Seg (GStar :: map GLit suf)] ->
  no_slash suf = true ->
  Glob.matches pattern (pre ++ suf) = true.
Proof.
  intros Hp Hs. unfold Glob.matches. rewrite Hp.
  destruct (segments_app_no_slash pre suf Hs) as (dirs & base & ->).
  apply segs_match_globstar_skip. cbn [segs_match].
  rewrite seg_match_star_skip by (apply seg_match_literal; reflexivity).
  reflexivity.
Qed.

(** A pattern [**/dir/**] matches every path with a directory [dir]. *)
Lemma dir_glob_matches (pattern : string) (d path : jsstring) :
  Glob.parse pattern = Some [GlobStar; Seg (map GLit d); GlobStar] ->
  has_dir_segment d path = true ->
  Glob.matches pattern path = true.
Proof.
  intros Hp Hd. unfold Glob.matches. rewrite Hp.
  apply existsb_removelast_split in Hd as (before & after & _ & ->).
  apply segs_match_globstar_skip.
  change (seg_match (map GLit d) d && segs_match [GlobStar] after = true).
  rewrite segs_match_globstar_all.
  rewrite (proj2 (seg_match_literal d d) eq_refl). reflexivity.
Qed.

Lemma ignored_by (pattern : string) (path : jsstring) :
  In pattern (ignores eslintConfig) ->
  Glob.matches pattern path = true ->
  ignored eslintConfig path = true.
Proof.
  intros Hin Hm. apply existsb_exists. exists pattern. split; assumption.
Qed.

(** X16. The configuration files and the test files that the list names
    are not linted: every path that ends in [.config.js], [.config.mjs],
    [.config.ts], [.test.ts] or [.test.tsx], and every path with a
    directory named [tests] or [__tests__], is matched by some pattern of
    the [ignores] list. *)
Theorem config_and_test_files_ignored (path : jsstring) :
  ends_with (units ".config.js") path = true
  \/ ends_with (units ".config.mjs") path = true
  \/ ends_with (units ".config.ts") path = true
  \/ ends_with (units ".test.ts") path = true
  \/ ends_with (units ".test.tsx") path = true
  \/ has_dir_segment (units "tests") path = true
  \/ has_dir_segment (units "__tests__") path = true ->
  ignored eslintConfig path = true.
Proof.
  intros [H|[H|[H|[H|[H|[H|H]]]]]];
    try (apply ends_with_spec in H as [pre ->]).
  - apply (ignored_by "**/*.config.js"); [simpl; tauto|].
    apply suffix_glob_matches; reflexivity.
  - apply (ignored_by "**/*.config.mjs"); [simpl; tauto|].
    apply suffix_glob_matches; reflexivity.
  - apply (ignored_by "**/*.config.ts"); [simpl; tauto|].
    apply suffix_glob_matches; reflexivity.
  - apply (ignored_by "**/*.test.ts"); [simpl; tauto|].
    apply suffix_glob_matches; reflexivity.
  - apply (ignored_by "**/*.test.tsx"); [simpl; tauto|].
    apply suffix_glob_matches; reflexivity.
  - apply (ignored_by "**/tests/**"); [simpl; tauto|].
    apply (dir_glob_matches _ (units "tests")); [reflexivity | exact H].
  - apply (ignored_by "**/__tests__/**"); [simpl; tauto|].
    apply (dir_glob_matches _ (units "__tests__")); [reflexivity | exact H].
Qed.

Lemma config_and_test_files_ignored_witness :
  ends_with (units ".config.ts") (units "jest.config.ts") = true
  /\ ignored eslintConfig (units "jest.config.ts") = true.
Proof.
  split; [reflexivity|].
  apply (config_and_test_files_ignored (units "jest.config.ts")).
  right; right; left. reflexivity.
Defined.

(** Ordinary sources are linted; the runner's own configuration is not. *)
Example page_is_linted :
  ignored eslintConfig (units "src/app/page.tsx") = false.
Proof. reflexivity. Qed.

(** The list names [.test.ts] and [.test.tsx] and no other spelling of a
    test file: a spec file next to its module is linted. *)
Example spec_file_is_linted :
  ignored eslintConfig (units "src/lib/date.spec.ts") = false.
Proof. reflexivity. Qed.

Example colocated_test_is_not_linted :
  ignored eslintConfig (units "src/lib/__tests__/date.ts") = true.
Proof. reflexivity. Qed.

End EslintProperties.

(** * Further properties of the two configurations *)

(** ** What a glob matches, read both ways *)
Section GlobShapes.
Import Glob.

Lemma seg_match_lit_iff (c : N) (ts : list gtok) (s : jsstring) :
  seg_match (GLit c :: ts) s = true
  <-> exists s', s = c :: s' /\ seg_match ts s' = true.
Proof.
  destruct s as [|c' s]; simpl.
  - split; [discriminate | intros (s' & H & _); discriminate].
  - rewrite andb_true_iff, N.eqb_eq. split.
    + intros [-> H]. exists s. auto.
    + intros (s' & H & Hm). inversion H; subst. auto.
Qed.

Lemma seg_match_star_iff (ts : list gtok) (s : jsstring) :
  seg_match (GStar :: ts) s = true
  <-> exists a b, s = a ++ b /\ seg_match ts b = true.
Proof.
  split.
  - induction s as [|c s IH]; rewrite seg_match_star; intros H;
      apply orb_true_iff in H as [H|H].
    + exists [], []. auto.
    + discriminate.
    + exists [], (c :: s). auto.
    + destruct (IH H) as (a & b & -> & Hb). exists (c :: a), b. auto.
  - intros (a & b & -> & Hb). apply seg_match_star_skip, Hb.
Qed.

Lemma seg_match_brace_iff (alts : list jsstring) (ts : list gtok)
  (s : jsstring) :
  seg_match (GBrace alts :: ts) s = true
  <-> exists a s', In a alts /\ s = a ++ s' /\ seg_match ts s' = true.
Proof.
  cbn [seg_match]. rewrite existsb_exists. split.
  - intros (a & Hin & H). destruct (strip_prefix a s) as [s'|] eqn:E;
      [|discriminate].
    apply strip_prefix_spec in E. exists a, s'. auto.
  - intros (a & s' & Hin & -> & H). exists a. split; [exact Hin|].
    rewrite strip_prefix_app. exact H.
Qed.

Lemma seg_match_nil_iff (s : jsstring) : seg_match [] s = true <-> s = [].
Proof. destruct s; simpl; split; congruence. Qed.

(** A brace that closes a segment: the text left is one of the
    alternatives. *)
Lemma seg_match_brace_last (alts : list jsstring) (s : jsstring) :
  seg_match [GBrace alts] s = true <-> In s alts.
Proof.
  rewrite seg_match_brace_iff. split.
  - intros (a & s' & Hin & -> & H). apply seg_match_nil_iff in H. subst s'.
    rewrite app_nil_r. exact Hin.
  - intros Hin. exists s, []. rewrite app_nil_r. auto.
Qed.

Lemma segs_match_nil_iff (fs : list jsstring) :
  segs_match [] fs = true <-> fs = [].
Proof. destruct fs; simpl; split; congruence. Qed.

Lemma segs_match_seg_iff (ts : list gtok) (ps : list gseg)
  (fs : list jsstring) :
  segs_match (Seg ts :: ps) fs = true
  <-> exists f fs', fs = f :: fs' /\ seg_match ts f = true
                    /\ segs_match ps fs' = true.
Proof.
  destruct fs as [|f fs]; cbn [segs_match].
  - split; [discriminate | intros (f & fs' & H & _); discriminate].
  - rewrite andb_true_iff. split.
    + intros [H1 H2]. exists f, fs. auto.
    + intros (f' & fs' & H & H1 & H2). inversion H; subst. auto.
Qed.

Lemma segs_match_globstar_iff (ps : list gseg) (fs : list jsstring) :
  segs_match (GlobStar :: ps) fs = true
  <-> exists a b, fs = a ++ b /\ segs_match ps b = true.
Proof.
  split.
  - induction fs as [|f fs IH]; rewrite segs_match_globstar; intros H;
      apply orb_true_iff in H as [H|H].
    + exists [], []. auto.
    + discriminate.
    + exists [], (f :: fs). auto.
    + destruct (IH H) as (a & b & -> & Hb). exists (f :: a), b. auto.
  - intros (a & b & -> & Hb). apply segs_match_globstar_skip, Hb.
Qed.

(** [**] then one last segment: the pattern is about the file's name. *)
Lemma segs_match_basename (ts : list gtok) (fs : list jsstring) :
  segs_match [GlobStar; Seg ts] fs = true
  <-> exists dirs base, fs = dirs ++ [base] /\ seg_match ts base = true.
Proof.
  rewrite segs_match_globstar_iff. split.
  - intros (a & b & -> & H). apply segs_match_seg_iff in H
      as (f & fs' & -> & Hf & H). apply segs_match_nil_iff in H. subst fs'.
    exists a, f. auto.
  - intros (dirs & base & -> & H). exists dirs, [base]. split; [reflexivity|].
    apply segs_match_seg_iff. exists base, []. auto.
Qed.

(** The text of a path ends with its last segment. *)
Lemma join_last (dirs : list jsstring) (base : jsstring) :
  exists pre, join (dirs ++ [base]) = pre ++ base.
Proof.
  induction dirs as [|d dirs (pre & IH)].
  - exists []. reflexivity.
  - change ((d :: dirs) ++ [base]) with (d :: (dirs ++ [base])).
    rewrite join_cons by (destruct dirs; discriminate).
    rewrite IH. exists (d ++ slash :: pre). rewrite <- app_assoc. reflexivity.
Qed.

Lemma segments_last_suffix (path : jsstring) (dirs : list jsstring)
  (base suf : jsstring) :
  segments path = dirs ++ [base ++ suf] -> ends_with suf path = true.
Proof.
  intros H. apply ends_with_spec.
  destruct (join_last dirs (base ++ suf)) as (pre & Hj).
  exists (pre ++ base). pose proof (join_segments path) as Hp.
  rewrite H in Hp. rewrite <- Hp, <- app_assoc. exact Hj.
Qed.

End GlobShapes.

(** ** Which files the runner takes *)
Section JestCoverage.
Import Glob Regex Jest.

Lemma segs_match_two_dirs (a b : jsstring) (ps : list gseg)
  (fs : list jsstring) :
  segs_match (Seg (map GLit a) :: Seg (map GLit b) :: ps) fs = true
  <-> exists fs', fs = a :: b :: fs' /\ segs_match ps fs' = true.
Proof.
  rewrite segs_match_seg_iff. split.
  - intros (f & fs1 & -> & Hf & H). apply seg_match_literal in Hf. subst f.
    apply segs_match_seg_iff in H as (g & fs2 & -> & Hg & H).
    apply seg_match_literal in Hg. subst g. exists fs2. auto.
  - intros (fs' & -> & H). exists a, (b :: fs'). split; [reflexivity|].
    split; [apply seg_match_literal; reflexivity|].
    apply segs_match_seg_iff. exists b, fs'.
    split; [reflexivity|]. split; [apply seg_match_literal; reflexivity|].
    exact H.
Qed.

(** [*.{...}]: a name, a dot and one of the extensions. *)
Lemma seg_match_extension (exts : list jsstring) (f : jsstring) :
  seg_match [GStar; GLit 46; GBrace exts] f = true
  <-> exists base ext, f = base ++ units "." ++ ext /\ In ext exts.
Proof.
  rewrite seg_match_star_iff. split.
  - intros (a & b & -> & H). apply seg_match_lit_iff in H as (s' & -> & H).
    apply seg_match_brace_last in H. exists a, s'. auto.
  - intros (base & ext & -> & Hin). exists base, (units "." ++ ext).
    split; [reflexivity|]. apply seg_match_lit_iff. exists ext.
    split; [reflexivity|]. apply seg_match_brace_last, Hin.
Qed.

(** [*.{...}.{...}]: a name, a dot, one of the kinds, a dot and one of the
    extensions. *)
Lemma seg_match_kind_extension (kinds exts : list jsstring) (f : jsstring) :
  seg_match [GStar; GLit 46; GBrace kinds; GLit 46; GBrace exts] f = true
  <-> exists stem kind ext,
        f = (stem ++ units "." ++ kind) ++ units "." ++ ext
        /\ In kind kinds /\ In ext exts.
Proof.
  rewrite seg_match_star_iff. split.
  - intros (a & b & -> & H). apply seg_match_lit_iff in H as (s1 & -> & H).
    apply seg_match_brace_iff in H as (kind & s2 & Hk & -> & H).
    apply seg_match_lit_iff in H as (s3 & -> & H).
    apply seg_match_brace_last in H. exists a, kind, s3.
    split; [|auto]. rewrite <- !app_assoc. reflexivity.
  - intros (stem & kind & ext & -> & Hk & He).
    exists stem, (units "." ++ kind ++ units "." ++ ext).
    split; [rewrite <- !app_assoc; reflexivity|].
    apply seg_match_lit_iff. exists (kind ++ units "." ++ ext).
    split; [reflexivity|]. apply seg_match_brace_iff.
    exists kind, (units "." ++ ext). split; [exact Hk|].
    split; [reflexivity|]. apply seg_match_lit_iff. exists ext.
    split; [reflexivity|]. apply seg_match_brace_last, He.
Qed.

(** The first include pattern below the source directory: a directory
    [__tests__] somewhere, and a file with one of the extensions. *)
Lemma dunder_shape (exts : list jsstring) (fs : list jsstring) :
  segs_match [GlobStar; Seg (map GLit (units "__tests__")); GlobStar;
              Seg [GStar; GLit 46; GBrace exts]] fs = true
  <-> exists dirs base ext,
        fs = dirs ++ [base ++ units "." ++ ext]
        /\ In ext exts /\ In (units "__tests__") dirs.
Proof.
  rewrite segs_match_globstar_iff. split.
  - intros (d1 & b & -> & H).
    apply segs_match_seg_iff in H as (f & fs1 & -> & Hf & H).
    apply seg_match_literal in Hf. subst f.
    apply segs_match_basename in H as (d2 & last & -> & H).
    apply seg_match_extension in H as (base & ext & -> & He).
    exists (d1 ++ units "__tests__" :: d2), base, ext.
    split; [rewrite <- app_assoc; reflexivity|].
    split; [exact He|]. apply in_or_app. right. left. reflexivity.
  - intros (dirs & base & ext & -> & He & Hin).
    apply in_split in Hin as (d1 & d2 & ->).
    exists d1, (units "__tests__" :: d2 ++ [base ++ units "." ++ ext]).
    split; [rewrite <- app_assoc; reflexivity|].
    apply segs_match_seg_iff.
    exists (units "__tests__"), (d2 ++ [base ++ units "." ++ ext]).
    split; [reflexivity|]. split; [apply seg_match_literal; reflexivity|].
    apply segs_match_basename. exists d2, (base ++ units "." ++ ext).
    split; [reflexivity|]. apply seg_match_extension. exists base, ext. auto.
Qed.

(** The shape of the paths the runner takes, below the root. *)
Lemma test_matched_segments (path : jsstring) :
  test_matched customJestConfig path = true
  <-> exists dirs base ext,
        segments path
        = units "<rootDir>" :: units "src"
            :: dirs ++ [base ++ units "." ++ ext]
        /\ In ext [units "js"; units "jsx"; units "ts"; units "tsx"]
        /\ (In (units "__tests__") dirs
            \/ exists stem kind,
                 In kind [units "spec"; units "test"]
                 /\ base = stem ++ units "." ++ kind).
Proof.
  unfold test_matched. cbn [testMatch customJestConfig existsb].
  rewrite orb_false_r, orb_true_iff. unfold Glob.matches.
  rewrite parse_testMatch_dunder, parse_testMatch_suffix.
  rewrite !segs_match_two_dirs. split.
  - intros [(fs & Hs & H) | (fs & Hs & H)].
    + apply dunder_shape in H as (dirs & base & ext & -> & He & Hd).
      exists dirs, base, ext. auto.
    + apply segs_match_basename in H as (dirs & last & -> & H).
      apply seg_match_kind_extension in H
        as (stem & kind & ext & -> & Hk & He).
      exists dirs, (stem ++ units "." ++ kind), ext.
      split; [exact Hs|]. split; [exact He|]. right. exists stem, kind. auto.
  - intros (dirs & base & ext & Hs & He & [Hd | (stem & kind & Hk & ->)]).
    + left. exists (dirs ++ [base ++ units "." ++ ext]).
      split; [exact Hs|]. apply dunder_shape. exists dirs, base, ext. auto.
    + right. exists (dirs ++ [(stem ++ units "." ++ kind) ++ units "." ++ ext]).
      split; [exact Hs|]. apply segs_match_basename.
      exists dirs, ((stem ++ units "." ++ kind) ++ units "." ++ ext).
      split; [reflexivity|]. apply seg_match_kind_extension.
      exists stem, kind, ext. auto.
Qed.

(** X2. The runner never takes a file of another type: every matched path
    ends in [.js], [.jsx], [.ts] or [.tsx]. *)
Theorem test_files_have_script_extension (path : jsstring) :
  test_matched customJestConfig path = true ->
  ends_with (units ".js") path = true
  \/ ends_with (units ".jsx") path = true
  \/ ends_with (units ".ts") path = true
  \/ ends_with (units ".tsx") path = true.
Proof.
  intros H. apply test_matched_segments in H
    as (dirs & base & ext & Hs & He & _).
  change (units "<rootDir>" :: units "src"
            :: dirs ++ [base ++ units "." ++ ext])
    with ((units "<rootDir>" :: units "src" :: dirs)
            ++ [base ++ units "." ++ ext]) in Hs.
  apply segments_last_suffix in Hs.
  destruct He as [<-|[<-|[<-|[<-|[]]]]]; auto.
Qed.

Lemma test_files_have_script_extension_witness :
  test_matched customJestConfig (units "<rootDir>/src/lib/date.spec.js") = true
  /\ (ends_with (units ".js") (units "<rootDir>/src/lib/date.spec.js") = true
      \/ ends_with (units ".jsx") (units "<rootDir>/src/lib/date.spec.js")
         = true
      \/ ends_with (units ".ts") (units "<rootDir>/src/lib/date.spec.js")
         = true
      \/ ends_with (units ".tsx") (units "<rootDir>/src/lib/date.spec.js")
         = true).
Proof.
  split; [reflexivity|].
  apply (test_files_have_script_extension
           (units "<rootDir>/src/lib/date.spec.js")).
  reflexivity.
Defined.

End JestCoverage.

(** ** What a pattern finds, read both ways *)
Section RegexShapes.
Import Regex.

Lemma run_any_stop (st : mstate) (k : continuation) :
  rest st = []
  \/ (exists c t, rest st = c :: t /\ is_line_terminator c = true) ->
  run Any st k = None.
Proof.
  intros [H | (c & t & H & Hc)]; simpl; rewrite H; [|rewrite Hc]; reflexivity.
Qed.

(** Where [.*] stopped: after a prefix free of line terminators, at the
    point where the continuation gave the result. *)
Lemma iterate_any_inv (n : nat) :
  forall (st : mstate) (k : continuation) (res : mstate),
    iterate (run Any) n st k = Some res ->
    exists s1 t,
      rest st = s1 ++ t
      /\ no_line_terminator s1 = true
      /\ k (moved st (List.length s1) t) = Some res.
Proof.
  induction n as [|n IH]; intros st k res H.
  - exists [], (rest st). rewrite moved_0. auto.
  - assert (Hstop : k st = Some res ->
                    exists s1 t, rest st = s1 ++ t
                                 /\ no_line_terminator s1 = true
                                 /\ k (moved st (List.length s1) t) = Some res).
    { intros Hk. exists [], (rest st). rewrite moved_0. auto. }
    destruct (rest st) as [|c t] eqn:Hr.
    + cbn [iterate] in H. rewrite run_any_stop in H by auto. auto.
    + destruct (is_line_terminator c) eqn:Hc.
      * cbn [iterate] in H.
        rewrite run_any_stop in H by (right; exists c, t; auto). auto.
      * rewrite (iterate_any_cons _ _ _ _ _ Hr Hc) in H.
        destruct (iterate (run Any) n (advance st t) k) as [res'|] eqn:E;
          [|auto].
        inversion H; subst res'.
        apply IH in E as (s1 & t' & Ht & Hs & Hk).
        cbn [rest advance] in Ht. subst t.
        exists (c :: s1), t'. split; [reflexivity|].
        split; [simpl; rewrite Hc; exact Hs|].
        rewrite moved_advance in Hk. exact Hk.
Qed.





Lemma test_iff_scan (pattern : string) (r : regex) (g : nat)
  (input : jsstring) :
  Regex.parse pattern = Some (r, g) ->
  (Regex.test pattern input = true <-> scan r g 0 input <> None).
Proof.
  intros Hp. unfold Regex.test, Regex.exec. rewrite Hp.
  destruct (scan r g 0 input); split; congruence.
Qed.


End RegexShapes.

(** ** What the runner skips, transforms and rewrites *)
Section JestReach.
Import Regex Jest.

Lemma chars_app (a b : jsstring) (r : regex) :
  chars (a ++ b) r = chars a (chars b r).
Proof. induction a as [|c a IH]; simpl; [|rewrite IH]; reflexivity. Qed.




Lemma scan_anchored_inv (r : regex) (g : nat) (input : jsstring)
  (m : list (option jsstring)) :
  scan (Seq Bol r) g 0 input = Some m ->
  attempt (Seq Bol r) g 0 input = Some m.
Proof.
  destruct input as [|c t]; cbn [scan];
    destruct (attempt (Seq Bol r) g 0 _); try congruence.
  rewrite scan_bol_later by lia. discriminate.
Qed.

(** Literal text that must close the input. *)
Lemma run_chars_to_end (l : jsstring) (st : mstate) (f : mstate -> mstate)
  (res : mstate) :
  (forall st', rest (f st') = rest st') ->
  run (chars l Empty) st (fun st' => run (Seq Eol Empty) (f st') Some)
  = Some res ->
  rest st = l.
Proof.
  intros Hf. rewrite run_chars.
  destruct (strip_prefix l (rest st)) as [t|] eqn:E; [|discriminate].
  apply strip_prefix_spec in E. cbn [run]. rewrite Hf. cbn [moved rest].
  destruct t; [|discriminate]. rewrite app_nil_r in E. auto.
Qed.

(** The key of the transform map is found in no other name than a stem on
    one line followed by one of the two extensions. *)
Lemma ts_key_inv (file : jsstring) :
  Regex.test "^.+\.(ts|tsx)$" file = true ->
  exists stem,
    stem <> [] /\ no_line_terminator stem = true
    /\ (file = stem ++ units ".ts" \/ file = stem ++ units ".tsx").
Proof.
  intros H. apply (test_iff_scan _ _ _ file parse_ts_key) in H.
  destruct (scan _ 1 0 file) as [m|] eqn:E; [clear H | congruence].
  apply scan_anchored_inv in E. unfold attempt in E.
  match type of E with
  | match run (Seq Bol (Seq (Plus Any) ?r)) ?st Some with _ => _ end = _ =>
      change (run (Seq Bol (Seq (Plus Any) r)) st Some)
        with (run Any st
                (fun st' =>
                   iterate (run Any) (S (List.length (rest st'))) st'
                           (fun st'' => run r st'' Some))) in E
  end.
  destruct file as [|c t]; [rewrite run_any_stop in E by auto; discriminate|].
  destruct (is_line_terminator c) eqn:Hc.
  { rewrite run_any_stop in E by (right; exists c, t; auto). discriminate. }
  rewrite (run_any_cons _ _ c t) in E by (trivial; reflexivity).
  match type of E with
  | match ?x with _ => _ end = _ => destruct x as [res|] eqn:Hit;
                                    [clear E | discriminate]
  end.
  apply iterate_any_inv in Hit as (s1 & t' & Ht & Hs & Hk).
  cbn [advance rest] in Ht. subst t.
  rewrite run_chars in Hk. cbn [moved rest] in Hk.
  destruct (strip_prefix (units ".") t') as [u|] eqn:Hdot; [|discriminate].
  apply strip_prefix_spec in Hdot. subst t'.
  exists (c :: s1). split; [discriminate|].
  split; [simpl; rewrite Hc; exact Hs|].
  cbn [run] in Hk.
  match type of Hk with
  | match ?x with _ => _ end = _ => destruct x as [res1|] eqn:Hts
  end.
  - left. apply run_chars_to_end in Hts; [|reflexivity].
    cbn [moved rest] in Hts. subst u. reflexivity.
  - right. apply run_chars_to_end in Hk; [|reflexivity].
    cbn [moved rest] in Hk. subst u. reflexivity.
Qed.

(** The alias pattern is found in no other specifier than ["@/"] followed
    by text on one line. *)
Lemma exec_alias_inv (name : jsstring) (m : list (option jsstring)) :
  Regex.exec "^@/(.*)$" name = Some m ->
  exists s, name = units "@/" ++ s /\ no_line_terminator s = true.
Proof.
  unfold Regex.exec. rewrite parse_alias. intros H.
  apply scan_anchored_inv in H. unfold attempt in H.
  cbn [run pos Nat.eqb] in H. rewrite run_chars in H. cbn [rest] in H.
  destruct (strip_prefix (units "@/") name) as [s|] eqn:E; [|discriminate].
  apply strip_prefix_spec in E. subst name. exists s. split; [reflexivity|].
  cbn [run] in H.
  match type of H with
  | match ?x with _ => _ end = _ => destruct x as [res|] eqn:Hit;
                                    [clear H | discriminate]
  end.
  apply iterate_any_inv in Hit as (s1 & t & Ht & Hs & Hk).
  cbn [moved rest] in Ht, Hk. subst s.
  destruct t; [|discriminate]. rewrite app_nil_r. exact Hs.
Qed.

Lemma map_module_name_alias (s : jsstring) :
  no_line_terminator s = true ->
  map_module_name (moduleNameMapper customJestConfig) (units "@/" ++ s)
  = Some (units "<rootDir>/src/" ++ s).
Proof.
  intros Hs. cbn [moduleNameMapper customJestConfig map_module_name].
  rewrite (exec_alias _ Hs). f_equal.
Qed.

(** What the mapper rewrites, and into what. *)
Lemma map_module_name_inv (name out : jsstring) :
  map_module_name (moduleNameMapper customJestConfig) name = Some out ->
  exists s,
    name = units "@/" ++ s
    /\ no_line_terminator s = true
    /\ out = units "<rootDir>/src/" ++ s.
Proof.
  intros H. pose proof H as H0.
  cbn [moduleNameMapper customJestConfig map_module_name] in H0.
  destruct (Regex.exec "^@/(.*)$" name) as [m|] eqn:E; [|discriminate].
  apply exec_alias_inv in E as (s & -> & Hs).
  rewrite (map_module_name_alias _ Hs) in H. inversion H. eauto.
Qed.

(** X8. Mapping is done once: what the mapper produces is not an alias
    again, so mapping the result changes nothing. *)
Theorem alias_not_chained (name out : jsstring) :
  map_module_name (moduleNameMapper customJestConfig) name = Some out ->
  map_module_name (moduleNameMapper customJestConfig) out = None.
Proof.
  intros H. apply map_module_name_inv in H as (s & _ & _ & ->).
  cbn [moduleNameMapper customJestConfig map_module_name].
  unfold Regex.exec. rewrite parse_alias.
  rewrite scan_anchored_none; [reflexivity|].
  eval_units. reflexivity.
Qed.

Lemma alias_not_chained_witness :
  map_module_name (moduleNameMapper customJestConfig) (units "@/lib/date")
  = Some (units "<rootDir>/src/lib/date")
  /\ map_module_name (moduleNameMapper customJestConfig)
       (units "<rootDir>/src/lib/date") = None.
Proof.
  split; [reflexivity|].
  apply (alias_not_chained (units "@/lib/date")
           (units "<rootDir>/src/lib/date")).
  reflexivity.
Defined.

End JestReach.

(** ** What the linter is given and what it leaves out *)
Section EslintReach.
Import Glob Eslint.

Lemma parse_files_glob :
  Glob.parse "**/*.{js,jsx,ts,tsx,mjs}"
  = Some [GlobStar;
          Seg [GStar; GLit 46;
               GBrace [units "js"; units "jsx"; units "ts"; units "tsx";
                       units "mjs"]]].
Proof. reflexivity. Qed.

Lemma selected_shape (path : jsstring) :
  selected eslintConfig path = true
  <-> ends_with (units ".js") path = true
      \/ ends_with (units ".jsx") path = true
      \/ ends_with (units ".ts") path = true
      \/ ends_with (units ".tsx") path = true
      \/ ends_with (units ".mjs") path = true.
Proof.
  unfold selected. change (files eslintConfig) with ["**/*.{js,jsx,ts,tsx,mjs}"%string].
  cbn [existsb]. rewrite orb_false_r. unfold Glob.matches.
  rewrite parse_files_glob, segs_match_basename. split.
  - intros (dirs & last & Hs & H).
    apply seg_match_extension in H as (base & ext & -> & He).
    apply segments_last_suffix in Hs.
    destruct He as [<-|[<-|[<-|[<-|[<-|[]]]]]]; auto 6.
  - assert (Hsuf : forall ext pre,
               In ext [units "js"; units "jsx"; units "ts"; units "tsx";
                       units "mjs"] ->
               exists dirs last,
                 segments (pre ++ units "." ++ ext) = dirs ++ [last]
                 /\ seg_match [GStar; GLit 46;
                               GBrace [units "js"; units "jsx"; units "ts";
                                       units "tsx"; units "mjs"]] last = true).
    { intros ext pre He.
      destruct (segments_app_no_slash pre (units "." ++ ext))
        as (dirs & base & Hs).
      { destruct He as [<-|[<-|[<-|[<-|[<-|[]]]]]]; reflexivity. }
      exists dirs, (base ++ units "." ++ ext). split; [exact Hs|].
      apply seg_match_extension. exists base, ext. auto. }
    intros [H|[H|[H|[H|H]]]]; apply ends_with_spec in H as (pre & ->).
    + apply (Hsuf (units "js")). simpl; tauto.
    + apply (Hsuf (units "jsx")). simpl; tauto.
    + apply (Hsuf (units "ts")). simpl; tauto.
    + apply (Hsuf (units "tsx")). simpl; tauto.
    + apply (Hsuf (units "mjs")). simpl; tauto.
Qed.

(** X10. The rules are written for script files only: a path is selected
    by the [files] pattern exactly when it ends in [.js], [.jsx], [.ts],
    [.tsx] or [.mjs]. *)
Theorem rules_written_for_scripts (path : jsstring) :
  selected eslintConfig path = true
  <-> ends_with (units ".js") path = true
      \/ ends_with (units ".jsx") path = true
      \/ ends_with (units ".ts") path = true
      \/ ends_with (units ".tsx") path = true
      \/ ends_with (units ".mjs") path = true.
Proof. apply selected_shape. Qed.

(** [**/dir/**] against a path cut at a segment [dir]. *)
Lemma dir_glob_matches_at (pattern : string) (d : jsstring)
  (before after : list jsstring) (path : jsstring) :
  Glob.parse pattern = Some [GlobStar; Seg (map GLit d); GlobStar] ->
  segments path = before ++ d :: after ->
  Glob.matches pattern path = true.
Proof.
  intros Hp Hs. unfold Glob.matches. rewrite Hp, Hs.
  apply segs_match_globstar_skip.
  change (seg_match (map GLit d) d && segs_match [GlobStar] after = true).
  rewrite segs_match_globstar_all.
  rewrite (proj2 (seg_match_literal d d) eq_refl). reflexivity.
Qed.

Lemma dir_glob_inv (pattern : string) (d path : jsstring) :
  Glob.parse pattern = Some [GlobStar; Seg (map GLit d); GlobStar] ->
  Glob.matches pattern path = true ->
  In d (segments path).
Proof.
  intros Hp. unfold Glob.matches. rewrite Hp, segs_match_globstar_iff.
  intros (a & b & -> & H).
  apply segs_match_seg_iff in H as (f & fs & -> & Hf & _).
  apply seg_match_literal in Hf. subst f.
  apply in_or_app. right. left. reflexivity.
Qed.

Lemma suffix_glob_inv (pattern : string) (suf path : jsstring) :
  Glob.parse pattern = Some [GlobStar; Seg (GStar :: map GLit suf)] ->
  Glob.matches pattern path = true ->
  ends_with suf path = true.
Proof.
  intros Hp. unfold Glob.matches. rewrite Hp, segs_match_basename.
  intros (dirs & last & Hs & H).
  apply seg_match_star_iff in H as (a & b & -> & H).
  apply seg_match_literal in H. subst b.
  apply segments_last_suffix in Hs. exact Hs.
Qed.

(** [**/name] is about the last segment alone. *)
Lemma name_glob_iff (pattern : string) (n path : jsstring) :
  Glob.parse pattern = Some [GlobStar; Seg (map GLit n)] ->
  (Glob.matches pattern path = true <-> last (segments path) [] = n).
Proof.
  intros Hp. unfold Glob.matches. rewrite Hp, segs_match_basename. split.
  - intros (dirs & base & -> & H). apply seg_match_literal in H. subst base.
    apply last_last.
  - intros H. pose proof (segments_not_nil path) as Hn.
    destruct (exists_last Hn) as (dirs & base & Hs).
    rewrite Hs, last_last in H. subst base.
    exists dirs, n. split; [exact Hs|]. apply seg_match_literal. reflexivity.
Qed.

(** X11. Dependencies, build output and generated types are never linted:
    a path with a directory named [node_modules], [.next], [out], [build],
    [dist], [public], [.vercel], [.turbo] or [coverage], and a path whose
    last segment is [next-env.d.ts], is matched by some [ignores]
    pattern. *)
Theorem build_output_ignored (path : jsstring) :
  (exists d,
     In d [units "node_modules"; units ".next"; units "out"; units "build";
           units "dist"; units "public"; units ".vercel"; units ".turbo";
           units "coverage"]
     /\ has_dir_segment d path = true)
  \/ last (segments path) [] = units "next-env.d.ts" ->
  ignored eslintConfig path = true.
Proof.
  intros [(d & Hd & H) | H].
  - destruct Hd as [<-|[<-|[<-|[<-|[<-|[<-|[<-|[<-|[<-|[]]]]]]]]]].
    + apply (ignored_by "**/node_modules/**"); [simpl; tauto|].
      apply (dir_glob_matches _ (units "node_modules")); auto.
    + apply (ignored_by "**/.next/**"); [simpl; tauto|].
      apply (dir_glob_matches _ (units ".next")); auto.
    + apply (ignored_by "**/out/**"); [simpl; tauto|].
      apply (dir_glob_matches _ (units "out")); auto.
    + apply (ignored_by "**/build/**"); [simpl; tauto|].
      apply (dir_glob_matches _ (units "build")); auto.
    + apply (ignored_by "**/dist/**"); [simpl; tauto|].
      apply (dir_glob_matches _ (units "dist")); auto.
    + apply (ignored_by "**/public/**"); [simpl; tauto|].
      apply (dir_glob_matches _ (units "public")); auto.
    + apply (ignored_by "**/.vercel/**"); [simpl; tauto|].
      apply (dir_glob_matches _ (units ".vercel")); auto.
    + apply (ignored_by "**/.turbo/**"); [simpl; tauto|].
      apply (dir_glob_matches _ (units ".turbo")); auto.
    + apply (ignored_by "**/coverage/**"); [simpl; tauto|].
      apply (dir_glob_matches _ (units "coverage")); auto.
  - apply (ignored_by "**/next-env.d.ts"); [simpl; tauto|].
    apply (name_glob_iff _ (units "next-env.d.ts")); auto.
Qed.

Lemma build_output_ignored_witness :
  ((exists d,
      In d [units "node_modules"; units ".next"; units "out"; units "build";
            units "dist"; units "public"; units ".vercel"; units ".turbo";
            units "coverage"]
      /\ has_dir_segment d (units "public/sw.js") = true)
   \/ last (segments (units "public/sw.js")) [] = units "next-env.d.ts")
  /\ ignored eslintConfig (units "public/sw.js") = true.
Proof.
  assert (H : (exists d,
                 In d [units "node_modules"; units ".next"; units "out";
                       units "build"; units "dist"; units "public";
                       units ".vercel"; units ".turbo"; units "coverage"]
                 /\ has_dir_segment d (units "public/sw.js") = true)
              \/ last (segments (units "public/sw.js")) []
                 = units "next-env.d.ts").
  { left. exists (units "public"). split; [simpl; tauto | reflexivity]. }
  split; [exact H|].
  exact (build_output_ignored (units "public/sw.js") H).
Defined.

Lemma obj_get_none {A} (key : string) (fields : list (string * A)) :
  ~ In key (map fst fields) -> obj_get key fields = None.
Proof.
  induction fields as [|[k v] fields IH]; intros Hn; [reflexivity|].
  simpl in *. rewrite IH by tauto.
  destruct (String.eqb_spec k key); [tauto | reflexivity].
Qed.

(** In an object literal without repeated keys, what is written under a
    key is what a lookup of the key gives. *)
Lemma obj_get_in {A} (key : string) (v : A) (fields : list (string * A)) :
  NoDup (map fst fields) -> In (key, v) fields ->
  obj_get key fields = Some v.
Proof.
  induction fields as [|[k w] fields IH]; intros Hd Hin; [destruct Hin|].
  simpl in Hd. inversion Hd as [|? ? Hk Hd']; subst.
  destruct Hin as [Heq|Hin].
  - inversion Heq; subst. simpl. rewrite obj_get_none by exact Hk.
    rewrite String.eqb_refl. reflexivity.
  - simpl. rewrite (IH Hd' Hin). reflexivity.
Qed.

Lemma rules_keys_distinct : NoDup (map fst (rules eslintConfig)).
Proof.
  assert (E : nodup string_dec (map fst (rules eslintConfig))
              = map fst (rules eslintConfig)) by (vm_compute; reflexivity).
  rewrite <- E. apply NoDup_nodup.
Qed.

(** X13. No rule is configured twice: the value written for a rule in the
    rules map is the setting in force for it. *)
Theorem rule_written_is_rule_in_force (name : string) (value : jsval) :
  In (name, value) (rules eslintConfig) ->
  rule_setting eslintConfig name = Some value.
Proof. apply obj_get_in, rules_keys_distinct. Qed.

Lemma rule_written_is_rule_in_force_witness :
  In ("no-var"%string, VStr "error") (rules eslintConfig)
  /\ rule_setting eslintConfig "no-var" = Some (VStr "error").
Proof.
  assert (Hin : In ("no-var"%string, VStr "error") (rules eslintConfig)).
  { do 39 right. left. reflexivity. }
  split; [exact Hin|].
  exact (rule_written_is_rule_in_force "no-var" (VStr "error") Hin).
Defined.

Lemma all_namespaces_known :
  forallb namespace_known (rules eslintConfig) = true.
Proof. vm_compute. reflexivity. Qed.

(** X14. No rule refers to a plugin that is not there: the namespace of
    every rule of the rules map is empty (a core rule), is
    [@typescript-eslint] (the plugin that the typescript-eslint shared
    config brings), or is a key of the plugins map. *)
Theorem rule_namespaces_registered (name : string) (value : jsval) :
  In (name, value) (rules eslintConfig) ->
  rule_namespace name = []
  \/ rule_namespace name = units "@typescript-eslint"
  \/ registered eslintConfig (rule_namespace name) = true.
Proof.
  intros Hin.
  pose proof (proj1 (forallb_forall _ _) all_namespaces_known _ Hin) as H.
  unfold namespace_known in H. cbn [fst] in H.
  apply orb_true_iff in H as [H|H]; [|auto].
  apply orb_true_iff in H as [H|H]; apply eqb_eq in H; auto.
Qed.

Lemma rule_namespaces_registered_witness :
  In ("@next/next/no-img-element"%string, VStr "error") (rules eslintConfig)
  /\ (rule_namespace "@next/next/no-img-element" = []
      \/ rule_namespace "@next/next/no-img-element"
         = units "@typescript-eslint"
      \/ registered eslintConfig (rule_namespace "@next/next/no-img-element")
         = true).
Proof.
  assert (Hin : In ("@next/next/no-img-element"%string, VStr "error")
                   (rules eslintConfig)).
  { do 17 right. left. reflexivity. }
  split; [exact Hin|].
  exact (rule_namespaces_registered "@next/next/no-img-element"
           (VStr "error") Hin).
Defined.

Lemma kind_ext_suffix (rel : jsstring) (dirs : list jsstring)
  (stem kind ext : jsstring) :
  segments rel = dirs ++ [(stem ++ units "." ++ kind) ++ units "." ++ ext] ->
  ends_with (units "." ++ kind ++ units "." ++ ext) rel = true.
Proof.
  intros H. apply (segments_last_suffix rel dirs stem). rewrite H.
  rewrite <- !app_assoc. reflexivity.
Qed.

Lemma ignored_by_suffix (pattern : string) (suf rel : jsstring) :
  In pattern (ignores eslintConfig) ->
  Glob.parse pattern = Some [GlobStar; Seg (GStar :: map GLit suf)] ->
  no_slash suf = true ->
  ends_with suf rel = true ->
  ignored eslintConfig rel = true.
Proof.
  intros Hin Hp Hs He. apply ends_with_spec in He as (pre & ->).
  apply (ignored_by pattern); [exact Hin|].
  apply suffix_glob_matches; assumption.
Qed.

(** X15. The test files that are still linted: a file the runner takes,
    seen from the project root, is left out of linting unless its name
    ends in [.spec.js], [.spec.jsx], [.spec.ts], [.spec.tsx], [.test.js]
    or [.test.jsx]. *)
Theorem tests_left_to_lint (rel : jsstring) :
  Jest.test_matched Jest.customJestConfig (units "<rootDir>/" ++ rel) = true ->
  ignored eslintConfig rel = true
  \/ exists suf,
       In suf [units ".spec.js"; units ".spec.jsx"; units ".spec.ts";
               units ".spec.tsx"; units ".test.js"; units ".test.jsx"]
       /\ ends_with suf rel = true.
Proof.
  intros H. apply test_matched_segments in H
    as (dirs & base & ext & Hs & He & Hk).
  change (units "<rootDir>/" ++ rel)
    with (units "<rootDir>" ++ slash :: rel) in Hs.
  rewrite segments_app_slash in Hs.
  change (segments (units "<rootDir>")) with [units "<rootDir>"] in Hs.
  simpl app in Hs. inversion Hs as [Hrel]. clear Hs.
  destruct Hk as [Hd | (stem & kind & Hkind & ->)].
  - left. apply in_split in Hd as (d1 & d2 & ->).
    apply (ignored_by "**/__tests__/**"); [simpl; tauto|].
    apply (dir_glob_matches_at "**/__tests__/**" (units "__tests__")
             (units "src" :: d1) (d2 ++ [base ++ units "." ++ ext]));
      [reflexivity|].
    rewrite Hrel, <- app_assoc. reflexivity.
  - apply (kind_ext_suffix rel (units "src" :: dirs) stem kind ext) in Hrel.
    destruct Hkind as [<-|[<-|[]]];
      destruct He as [<-|[<-|[<-|[<-|[]]]]].
    + right. exists (units ".spec.js"). split; [simpl; tauto | exact Hrel].
    + right. exists (units ".spec.jsx"). split; [simpl; tauto | exact Hrel].
    + right. exists (units ".spec.ts"). split; [simpl; tauto | exact Hrel].
    + right. exists (units ".spec.tsx"). split; [simpl; tauto | exact Hrel].
    + right. exists (units ".test.js"). split; [simpl; tauto | exact Hrel].
    + right. exists (units ".test.jsx"). split; [simpl; tauto | exact Hrel].
    + left. apply (ignored_by_suffix "**/*.test.ts" (units ".test.ts"));
        [simpl; tauto | reflexivity | reflexivity | exact Hrel].
    + left. apply (ignored_by_suffix "**/*.test.tsx" (units ".test.tsx"));
        [simpl; tauto | reflexivity | reflexivity | exact Hrel].
Qed.

Lemma tests_left_to_lint_witness :
  Jest.test_matched Jest.customJestConfig
    (units "<rootDir>/" ++ units "src/lib/date.spec.ts") = true
  /\ (ignored eslintConfig (units "src/lib/date.spec.ts") = true
      \/ exists suf,
           In suf [units ".spec.js"; units ".spec.jsx"; units ".spec.ts";
                   units ".spec.tsx"; units ".test.js"; units ".test.jsx"]
           /\ ends_with suf (units "src/lib/date.spec.ts") = true).
Proof.
  split; [reflexivity|].
  apply (tests_left_to_lint (units "src/lib/date.spec.ts")). reflexivity.
Defined.

End EslintReach.


(** ** The exported configuration *)
Section ExportedMapper.
Import Regex Jest NextJest.

Lemma has_key_in {A} (key : string) (fields : list (string * A)) :
  has_key key fields = true -> exists v, In (key, v) fields.
Proof.
  unfold has_key. rewrite existsb_exists. intros ([k v] & Hin & Hk).
  apply String.eqb_eq in Hk. simpl in Hk. subst k. eauto.
Qed.

Lemma own_value_in {A} (key : string) (v : A) (fields : list (string * A)) :
  own_value key fields = Some v -> In (key, v) fields.
Proof.
  induction fields as [|[k w] fields IH]; [discriminate|]. simpl.
  destruct (own_value key fields) as [v'|].
  - intros H. inversion H; subst. auto.
  - destruct (String.eqb_spec k key) as [->|]; [|discriminate].
    intros H. inversion H; subst. auto.
Qed.

(** Where an entry of [{ ...defaults, ...custom }] comes from. *)
Lemma in_spread {A} (key : string) (v : A)
  (defaults custom : list (string * A)) :
  In (key, v) (spread defaults custom) ->
  In (key, v) defaults \/ In (key, v) custom.
Proof.
  unfold spread. intros H. apply in_app_or in H as [H|H].
  - apply in_map_iff in H as ([k w] & Heq & Hin). cbn [fst] in Heq.
    destruct (own_value k custom) as [v'|] eqn:E.
    + inversion Heq; subst. right. apply own_value_in, E.
    + inversion Heq; subst. auto.
  - apply filter_In in H as [H _]. auto.
Qed.

Lemma spread_keys {A} (key : string) (v : A)
  (defaults custom : list (string * A)) :
  In (key, v) (map (fun kv => match own_value (fst kv) custom with
                              | Some v => (fst kv, v)
                              | None => kv
                              end) defaults) ->
  exists v0, In (key, v0) defaults.
Proof.
  intros H. apply in_map_iff in H as ([k w] & Heq & Hin). cbn [fst] in Heq.
  destruct (own_value k custom); inversion Heq; subst; eauto.
Qed.

Lemma no_entry_matches_exec (entries : list (string * string))
  (name : jsstring) (key target : string) :
  no_entry_matches entries name = true ->
  In (key, target) entries ->
  Regex.exec key name = None.
Proof.
  intros H Hin.
  pose proof (proj1 (forallb_forall _ _) H _ Hin) as Hk. cbn [fst] in Hk.
  destruct (Regex.parse key); [|discriminate].
  unfold Regex.test in Hk. destruct (Regex.exec key name);
    [discriminate | reflexivity].
Qed.

Lemma map_module_name_skip (front back : list (string * string))
  (name : jsstring) :
  (forall key target, In (key, target) front -> Regex.exec key name = None) ->
  map_module_name (front ++ back) name = map_module_name back name.
Proof.
  induction front as [|[k t] front IH]; intros H; [reflexivity|].
  simpl. rewrite (H k t) by (left; reflexivity).
  apply IH. intros key target Hin. apply (H key target). right. exact Hin.
Qed.

Lemma map_module_name_filter (keep : string * string -> bool)
  (entries : list (string * string)) (name : jsstring) :
  (forall key target,
     In (key, target) entries -> keep (key, target) = false ->
     Regex.exec key name = None) ->
  map_module_name (filter keep entries) name = map_module_name entries name.
Proof.
  induction entries as [|[k t] entries IH]; intros H; [reflexivity|].
  assert (IH' : map_module_name (filter keep entries) name
                = map_module_name entries name).
  { apply IH. intros key target Hin. apply H. right. exact Hin. }
  cbn [filter]. destruct (keep (k, t)) eqn:E.
  - cbn [map_module_name]. rewrite IH'. reflexivity.
  - cbn [map_module_name]. rewrite (H k t) by (auto; left; reflexivity).
    exact IH'.
Qed.

(** A specifier that no entry of the framework matches is mapped by the
    exported mapper as by the mapper of the config object. *)
Lemma map_module_name_spread (defaults custom : list (string * string))
  (name : jsstring) :
  no_entry_matches defaults name = true ->
  map_module_name (spread defaults custom) name
  = map_module_name custom name.
Proof.
  intros H. unfold spread. rewrite map_module_name_skip.
  - apply map_module_name_filter. intros key target Hin Hk.
    apply negb_false_iff in Hk. cbn [fst] in Hk.
    apply has_key_in in Hk as (v & Hv).
    apply (no_entry_matches_exec _ _ _ _ H Hv).
  - intros key target Hin. apply spread_keys in Hin as (v & Hv).
    apply (no_entry_matches_exec _ _ _ _ H Hv).
Qed.

(** C9, as amended. The module-name mapper of the exported configuration
    is the alias substitution into the source directory wherever the
    entries that the framework puts in front leave the specifier alone: for
    every [s] free of line terminators such that none of these entries
    matches ["@/" ++ s], it sends ["@/" ++ s] to ["<rootDir>/src/" ++ s];
    and it rewrites no specifier that does not begin with ["@/"] and that
    none of these entries matches. *)
Theorem alias_substitution_exported (d : Defaults) (s name : jsstring) :
  no_line_terminator s = true ->
  no_entry_matches (mapperDefaults d) (units "@/" ++ s) = true ->
  starts_with (units "@/") name = false ->
  no_entry_matches (mapperDefaults d) name = true ->
  map_module_name (moduleNameMapper (createJestConfig d customJestConfig))
    (units "@/" ++ s)
  = Some (units "<rootDir>/src/" ++ s)
  /\ map_module_name (moduleNameMapper (createJestConfig d customJestConfig))
       name
     = None.
Proof.
  intros Hs Hd Hname Hd'. cbn [moduleNameMapper createJestConfig].
  rewrite !map_module_name_spread by assumption. split.
  - apply map_module_name_alias, Hs.
  - cbn [moduleNameMapper customJestConfig map_module_name].
    unfold Regex.exec. rewrite parse_alias.
    rewrite scan_anchored_none by exact Hname. reflexivity.
Qed.

Lemma alias_substitution_exported_witness :
  (no_line_terminator (units "components/Button") = true
   /\ no_entry_matches (mapperDefaults nextJestDefaults)
        (units "@/" ++ units "components/Button") = true
   /\ starts_with (units "@/") (units "react") = false
   /\ no_entry_matches (mapperDefaults nextJestDefaults) (units "react")
      = true)
  /\ (map_module_name (moduleNameMapper exported)
        (units "@/" ++ units "components/Button")
      = Some (units "<rootDir>/src/" ++ units "components/Button")
      /\ map_module_name (moduleNameMapper exported) (units "react") = None).
Proof.
  split; [repeat split; reflexivity|].
  apply (alias_substitution_exported nextJestDefaults
           (units "components/Button") (units "react")); reflexivity.
Defined.

(** C9, as stated, fails on the exported mapper: an aliased stylesheet is
    caught by the framework's stylesheet entry, which comes first, and is
    sent to the framework's mock, not into the source directory. *)
Lemma aliased_stylesheet_is_mocked :
  map_module_name (moduleNameMapper exported) (units "@/styles/globals.css")
  = Some (units "next/dist/build/jest/__mocks__/styleMock.js")
  /\ map_module_name (moduleNameMapper exported)
       (units "@/styles/globals.css")
     <> Some (units "<rootDir>/src/styles/globals.css").
Proof. split; [reflexivity | vm_compute; discriminate]. Qed.

(** The other half fails as well: a stylesheet is rewritten without the
    alias; and a specifier with a line feed after the alias is left
    alone. *)
Lemma plain_stylesheet_is_rewritten :
  starts_with (units "@/") (units "globals.css") = false
  /\ map_module_name (moduleNameMapper exported) (units "globals.css")
     <> None.
Proof. split; [reflexivity | vm_compute; discriminate]. Qed.

Lemma alias_not_applied_across_lines :
  map_module_name (moduleNameMapper exported) (units "@/" ++ [10%N])
  <> Some (units "<rootDir>/src/" ++ [10%N]).
Proof. vm_compute. discriminate. Qed.

(** X7. The exported mapper rewrites, among the specifiers that the
    framework's entries leave alone, nothing but aliased ones, and only
    into the source directory: such a specifier that is rewritten is
    ["@/"] followed by some [s] free of line terminators, and the result is
    ["<rootDir>/src/"] followed by the same [s]. *)
Theorem alias_only_exported (d : Defaults) (name out : jsstring) :
  no_entry_matches (mapperDefaults d) name = true ->
  map_module_name (moduleNameMapper (createJestConfig d customJestConfig)) name
  = Some out ->
  exists s,
    name = units "@/" ++ s
    /\ no_line_terminator s = true
    /\ out = units "<rootDir>/src/" ++ s.
Proof.
  intros Hd. cbn [moduleNameMapper createJestConfig].
  rewrite map_module_name_spread by exact Hd. apply map_module_name_inv.
Qed.

Lemma alias_only_exported_witness :
  (no_entry_matches (mapperDefaults nextJestDefaults) (units "@/lib/date")
   = true
   /\ map_module_name (moduleNameMapper exported) (units "@/lib/date")
      = Some (units "<rootDir>/src/lib/date"))
  /\ exists s,
       units "@/lib/date" = units "@/" ++ s
       /\ no_line_terminator s = true
       /\ units "<rootDir>/src/lib/date" = units "<rootDir>/src/" ++ s.
Proof.
  split; [split; reflexivity|].
  apply (alias_only_exported nextJestDefaults (units "@/lib/date")
           (units "<rootDir>/src/lib/date")); reflexivity.
Defined.

End ExportedMapper.

Section ExportedRunner.
Import Glob Regex Jest NextJest.

(** X1. Every path matched by an include pattern lies below
    [<rootDir>/src], has a name that ends in a dot and [js], [jsx], [ts] or
    [tsx], and either sits below a directory [__tests__] or carries [.spec]
    or [.test] in front of that extension. *)
Theorem test_files_shape (path : jsstring) :
  test_matched customJestConfig path = true ->
  exists dirs base ext,
    segments path
    = units "<rootDir>" :: units "src" :: dirs ++ [base ++ units "." ++ ext]
    /\ In ext [units "js"; units "jsx"; units "ts"; units "tsx"]
    /\ (In (units "__tests__") dirs
        \/ exists stem kind,
             In kind [units "spec"; units "test"]
             /\ base = stem ++ units "." ++ kind).
Proof. apply test_matched_segments. Qed.

Lemma test_files_shape_witness :
  test_matched customJestConfig (units "<rootDir>/src/lib/date.spec.ts") = true
  /\ exists dirs base ext,
       segments (units "<rootDir>/src/lib/date.spec.ts")
       = units "<rootDir>" :: units "src"
           :: dirs ++ [base ++ units "." ++ ext]
       /\ In ext [units "js"; units "jsx"; units "ts"; units "tsx"]
       /\ (In (units "__tests__") dirs
           \/ exists stem kind,
                In kind [units "spec"; units "test"]
                /\ base = stem ++ units "." ++ kind).
Proof.
  split; [reflexivity|].
  apply (test_files_shape (units "<rootDir>/src/lib/date.spec.ts")).
  reflexivity.
Defined.



(** X5. The entries of the exported transform map that are assigned
    ['ts-jest'] are for TypeScript files only, as long as the framework
    assigns that transformer itself to nothing: a file that such a key
    matches is a non-empty stem free of line terminators followed by [.ts]
    or [.tsx]. *)
Theorem ts_jest_only_typescript (d : Defaults) (key : string)
  (file : jsstring) :
  (forall k, ~ In (k, "ts-jest"%string) (transformDefaults d)) ->
  In (key, "ts-jest"%string)
     (transform (createJestConfig d customJestConfig)) ->
  transform_key_matches key file = true ->
  exists stem,
    stem <> [] /\ no_line_terminator stem = true
    /\ (file = stem ++ units ".ts" \/ file = stem ++ units ".tsx").
Proof.
  intros Hd Hin H. cbn [transform createJestConfig] in Hin.
  apply in_spread in Hin as [Hin | Hin]; [destruct (Hd key Hin)|].
  destruct Hin as [Hin|[]]. inversion Hin; subst. apply ts_key_inv, H.
Qed.

Lemma ts_jest_only_typescript_witness :
  ((forall k, ~ In (k, "ts-jest"%string) (transformDefaults nextJestDefaults))
   /\ In ("^.+\.(ts|tsx)$"%string, "ts-jest"%string) (transform exported)
   /\ transform_key_matches "^.+\.(ts|tsx)$" (units "/app/src/lib/date.ts")
      = true)
  /\ exists stem,
       stem <> [] /\ no_line_terminator stem = true
       /\ (units "/app/src/lib/date.ts" = stem ++ units ".ts"
           \/ units "/app/src/lib/date.ts" = stem ++ units ".tsx").
Proof.
  assert (Hd : forall k,
             ~ In (k, "ts-jest"%string) (transformDefaults nextJestDefaults)).
  { intros k [H|[]]. discriminate H. }
  assert (Hin : In ("^.+\.(ts|tsx)$"%string, "ts-jest"%string)
                   (transform exported)).
  { right; left. reflexivity. }
  split; [split; [exact Hd | split; [exact Hin | reflexivity]]|].
  exact (ts_jest_only_typescript nextJestDefaults "^.+\.(ts|tsx)$"
           (units "/app/src/lib/date.ts") Hd Hin eq_refl).
Defined.

Lemma parse_swc_key :
  Regex.parse "^.+\.(js|jsx|ts|tsx|mjs)$"
  = Some (Seq Bol
            (Seq (Plus Any)
               (chars (units ".")
                  (Seq (Group 1
                          (Alt (chars (units "js") Empty)
                             (Alt (chars (units "jsx") Empty)
                                (Alt (chars (units "ts") Empty)
                                   (Alt (chars (units "tsx") Empty)
                                      (chars (units "mjs") Empty))))))
                       (Seq Eol Empty)))), 1).
Proof. reflexivity. Qed.

(** The framework's key is found wherever the key of the config object
    is. *)
Lemma swc_key_matches (c : N) (stem ext : jsstring) :
  is_line_terminator c = false ->
  no_line_terminator stem = true ->
  In ext [units ".ts"; units ".tsx"] ->
  Regex.test "^.+\.(js|jsx|ts|tsx|mjs)$" (c :: stem ++ ext) = true.
Proof.
  intros Hc Hs Hext. unfold Regex.test, Regex.exec. rewrite parse_swc_key.
  match goal with
  | |- match ?x with Some _ => true | None => false end = true =>
      assert (H : x <> None); [| destruct x; [reflexivity | congruence]]
  end.
  apply scan_attempt_some. unfold attempt.
  match goal with
  | |- match ?x with Some _ => _ | None => None end <> None =>
      assert (H : x <> None); [| destruct x; [discriminate | congruence]]
  end.
  match goal with
  | |- run (Seq Bol (Seq (Plus Any) ?r)) ?st Some <> None =>
      change (run Any st
                (fun st' =>
                   iterate (run Any) (S (List.length (rest st'))) st'
                           (fun st'' => run r st'' Some)) <> None)
  end.
  rewrite (run_any_cons _ _ c (stem ++ ext)) by (trivial; reflexivity).
  apply (iterate_any_some stem ext); trivial.
  - cbn [advance rest]. rewrite length_app. lia.
  - destruct Hext as [<-|[<-|[]]]; rewrite run_chars; eval_units;
      cbn; discriminate.
Qed.

(** X6. With the entries that the framework publishes, ['ts-jest'] is the
    transformer of no file: the framework's key comes first in the exported
    transform map and is found in every path in which the key of the
    config object is found. *)
Theorem ts_jest_never_selected (file : jsstring) :
  transformer_for (transform exported) file <> Some "ts-jest"%string.
Proof.
  change (transform exported)
    with [("^.+\.(js|jsx|ts|tsx|mjs)$"%string,
           "next/dist/build/swc/jest-transformer"%string);
          ("^.+\.(ts|tsx)$"%string, "ts-jest"%string)].
  cbn [transformer_for].
  destruct (Regex.test "^.+\.(js|jsx|ts|tsx|mjs)$" file) eqn:Eswc;
    [discriminate|].
  destruct (Regex.test "^.+\.(ts|tsx)$" file) eqn:Ets; [|discriminate].
  exfalso. apply ts_key_inv in Ets as (stem & Hne & Hs & Hfile).
  destruct stem as [|c stem]; [congruence|].
  simpl in Hs. apply andb_true_iff in Hs as [Hc Hs].
  apply negb_true_iff in Hc.
  assert (Regex.test "^.+\.(js|jsx|ts|tsx|mjs)$" file = true).
  { destruct Hfile as [-> | ->]; apply swc_key_matches; trivial;
      simpl; tauto. }
  congruence.
Qed.

(** C10. The linter does lint a test file: the runner takes
    [src/lib/date.spec.ts] as a test, and no pattern of the [ignores] list
    matches it. *)
Theorem spec_test_file_is_linted :
  test_matched customJestConfig (units "<rootDir>/src/lib/date.spec.ts") = true
  /\ Eslint.selected Eslint.eslintConfig (units "src/lib/date.spec.ts") = true
  /\ Eslint.ignored Eslint.eslintConfig (units "src/lib/date.spec.ts") = false.
Proof. repeat split. Qed.

End ExportedRunner.

(** ** The runner at a project root *)
Section RootedRunner.
Import Glob Regex Jest NextJest.

Lemma plain_cases (c : N) :
  plain c = true ->
  c = slash \/ (is_syntax_char c = false /\ N.eqb c 33 = false).
Proof.
  unfold plain. intros H. apply orb_true_iff in H as [H|H].
  - left. apply N.eqb_eq, H.
  - right. apply negb_true_iff, orb_false_iff in H. exact H.
Qed.

(** What [is_syntax_char c = false] says, one character at a time. *)
Lemma not_syntax_char (c : N) :
  is_syntax_char c = false ->
  N.eqb c Regex.caret = false /\ N.eqb c Regex.dollar = false
  /\ N.eqb c Regex.backslash = false /\ N.eqb c Regex.dot = false
  /\ N.eqb c Regex.star = false /\ N.eqb c Regex.plus = false
  /\ N.eqb c Regex.question = false /\ N.eqb c Regex.lparen = false
  /\ N.eqb c Regex.rparen = false /\ N.eqb c 91 = false
  /\ N.eqb c 93 = false /\ N.eqb c 123 = false /\ N.eqb c 125 = false
  /\ N.eqb c Regex.bar = false /\ N.eqb c slash = false.
Proof.
  unfold is_syntax_char. cbn [existsb]. intros H.
  repeat (apply orb_false_iff in H as [? H]). repeat split; assumption.
Qed.

Lemma parse_atom_plain (fuel : nat) (c : N) (s : jsstring) (g : nat) :
  0 < fuel -> plain c = true ->
  parse_atom fuel (c :: s) g = Some (Chr c, s, g).
Proof.
  intros Hf Hc. destruct fuel as [|f]; [inversion Hf|].
  destruct (plain_cases c Hc) as [-> | [Hs _]]; [reflexivity|].
  pose proof Hs as Hs'.
  apply not_syntax_char in Hs
    as (H1 & H2 & H3 & H4 & _ & _ & _ & H8 & _).
  cbn [parse_atom]. rewrite H8, H3, H4, H1, H2, Hs'. reflexivity.
Qed.

Lemma plain_not_quantifier (c : N) : plain c = true -> is_quantifier c = false.
Proof.
  intros Hc. destruct (plain_cases c Hc) as [-> | [Hs _]]; [reflexivity|].
  apply not_syntax_char in Hs as (_ & _ & _ & _ & H5 & H6 & H7 & _).
  unfold is_quantifier. rewrite H5, H6, H7. reflexivity.
Qed.

Lemma plain_not_closing (c : N) :
  plain c = true -> N.eqb c bar || N.eqb c rparen = false.
Proof.
  intros Hc. destruct (plain_cases c Hc) as [-> | [Hs _]]; [reflexivity|].
  apply not_syntax_char in Hs
    as (_ & _ & _ & _ & _ & _ & _ & _ & H9 & _ & _ & _ & _ & H14 & _).
  rewrite H9, H14. reflexivity.
Qed.

Lemma parse_quantifier_none (a : regex) (s : jsstring) :
  no_quantifier_ahead s = true -> parse_quantifier a s = Some (a, s).
Proof.
  destruct s as [|q s]; [reflexivity|]. simpl. intros H.
  apply negb_true_iff in H. rewrite H. reflexivity.
Qed.

(** A run of plain characters in front of a pattern is read as literal
    text. *)
Lemma parse_alternative_plain (l : jsstring) :
  forallb plain l = true ->
  forall (m : nat) (s : jsstring) (g : nat),
    0 < m ->
    no_quantifier_ahead s = true ->
    parse_alternative (List.length l + m) (l ++ s) g
    = match parse_alternative m s g with
      | Some (r, s', g') => Some (chars l r, s', g')
      | None => None
      end.
Proof.
  induction l as [|c l IH]; intros Hl m s g Hm Hs.
  - cbn [List.length app Nat.add].
    destruct (parse_alternative m s g) as [[[r s'] g']|]; reflexivity.
  - cbn [forallb] in Hl. apply andb_true_iff in Hl as [Hc Hl].
    change (List.length (c :: l) + m) with (S (List.length l + m)).
    change ((c :: l) ++ s) with (c :: l ++ s).
    cbn [parse_alternative]. rewrite (plain_not_closing c Hc).
    rewrite parse_atom_plain by (trivial; lia).
    rewrite parse_quantifier_none.
    + rewrite (IH Hl m s g Hm Hs).
      destruct (parse_alternative m s g) as [[[r s'] g']|]; reflexivity.
    + destruct l as [|c' l]; [exact Hs|]. simpl.
      cbn [forallb] in Hl. apply andb_true_iff in Hl as [Hc' _].
      rewrite (plain_not_quantifier c' Hc'). reflexivity.
Qed.

(** An ignore pattern after the replacement of the token: the root, read
    as literal text, then what the rest of the pattern is read as. *)
Lemma regex_parse_rooted (root tail : jsstring) (r : regex) (g : nat) :
  forallb plain root = true ->
  no_quantifier_ahead tail = true ->
  (forall n,
     parse_alternative (S (S (3 * List.length tail + n))) tail 0
     = Some (r, [], g)) ->
  regex_parse (root ++ tail) = Some (chars root r, g).
Proof.
  intros Hroot Htail Hparse. unfold regex_parse.
  replace (3 * List.length (root ++ tail) + 3)
    with (S (List.length root
             + S (S (3 * List.length tail + 2 * List.length root))))
    by (rewrite length_app; lia).
  cbn [parse_disjunction].
  rewrite parse_alternative_plain by (trivial; lia).
  rewrite Hparse. reflexivity.
Qed.

(** A pattern that opens with literal text is not found in a path where
    that text occurs at the start only and the pattern fails there. *)
Lemma literal_not_found (l : jsstring) (r : regex) (g : nat)
  (path : jsstring) :
  attempt (chars l r) g 0 path = None ->
  no_later_occurrence l path = true ->
  scan (chars l r) g 0 path = None.
Proof.
  intros Ha Hn. destruct path as [|c t]; cbn [scan]; rewrite Ha;
    [reflexivity|].
  unfold no_later_occurrence in Hn. apply scan_chars_none, Hn.
Qed.

(** An ignore pattern of the config object on a path below the source
    directory of the root. *)
Lemma rooted_ignore_not_found (root tail : jsstring) (r : regex)
  (t : jsstring) :
  forallb plain root = true ->
  (forall n,
     parse_alternative (S (S (3 * List.length (slash :: tail) + n)))
                       (slash :: tail) 0
     = Some (chars [slash] r, [], 0)) ->
  (forall st, rest st = units "src/" ++ t -> run r st Some = None) ->
  no_later_occurrence (root ++ [slash]) (root ++ units "/src/" ++ t) = true ->
  regex_test (root ++ slash :: tail) (root ++ units "/src/" ++ t) = false.
Proof.
  intros Hroot Hparse Hfail Hlater. unfold regex_test.
  rewrite (regex_parse_rooted root (slash :: tail) (chars [slash] r) 0);
    [| assumption | reflexivity | assumption].
  rewrite <- chars_app. rewrite literal_not_found; [reflexivity | | exact Hlater].
  unfold attempt. rewrite run_chars. cbn [rest].
  change (root ++ units "/src/" ++ t)
    with (root ++ [slash] ++ units "src/" ++ t).
  rewrite app_assoc, strip_prefix_app. rewrite Hfail; reflexivity.
Qed.

Lemma parse_tokens_plain (seg : jsstring) :
  forallb plain seg = true -> parse_tokens None seg = Some (map GLit seg).
Proof.
  induction seg as [|c seg IH]; intros H; [reflexivity|].
  cbn [forallb] in H. apply andb_true_iff in H as [Hc H].
  cbn [parse_tokens map]. rewrite (IH H).
  destruct (plain_cases c Hc) as [-> | [Hs Hb]]; [reflexivity|].
  apply not_syntax_char in Hs
    as (_ & _ & H3 & _ & H5 & _ & H7 & H8 & H9 & H10 & H11 & H12 & H13 & _).
  unfold unsupported, lbrace, rbrace, Glob.star.
  change 63%N with Regex.question. change 40%N with Regex.lparen.
  change 41%N with Regex.rparen. change 92%N with Regex.backslash.
  change 42%N with Regex.star.
  rewrite H7, H10, H11, H8, H9, Hb, H3, H12, H13, H5. reflexivity.
Qed.

Lemma parse_segment_plain (seg : jsstring) :
  forallb plain seg = true ->
  parse_segment seg = Some (Seg (map GLit seg)).
Proof.
  intros H. unfold parse_segment.
  destruct (JsString.eqb seg [Glob.star; Glob.star]) eqn:E.
  - apply eqb_eq in E. subst seg. discriminate H.
  - rewrite parse_tokens_plain by exact H. reflexivity.
Qed.

Lemma segments_plain (s : jsstring) :
  forallb plain s = true ->
  Forall (fun seg => forallb plain seg = true) (segments s).
Proof.
  induction s as [|c s IH]; intros H.
  - repeat constructor.
  - cbn [forallb] in H. apply andb_true_iff in H as [Hc H].
    specialize (IH H). cbn [segments]. destruct (N.eqb c slash).
    + constructor; [reflexivity | exact IH].
    + destruct (segments s) as [|h t]; [repeat constructor; simpl; rewrite Hc; reflexivity|].
      inversion IH; subst. constructor; [|assumption].
      cbn [forallb]. rewrite Hc. assumption.
Qed.

Lemma sequence_literal (segs : list jsstring) :
  Forall (fun seg => forallb plain seg = true) segs ->
  sequence (map parse_segment segs) = Some (map literal_segment segs).
Proof.
  induction 1 as [|seg segs Hseg _ IH]; [reflexivity|].
  cbn [map sequence]. rewrite (parse_segment_plain seg Hseg), IH. reflexivity.
Qed.

Lemma sequence_app {A} (a b : list (option A)) (x y : list A) :
  sequence a = Some x -> sequence b = Some y ->
  sequence (a ++ b) = Some (x ++ y).
Proof.
  revert x; induction a as [|[v|] a IH]; intros x Ha Hb.
  - inversion Ha; subst. exact Hb.
  - cbn [sequence app] in *. destruct (sequence a) as [x'|]; [|discriminate].
    inversion Ha; subst. rewrite (IH x' eq_refl Hb). reflexivity.
  - discriminate.
Qed.

(** An include pattern resolved against the root: the segments of the
    root, read as literal text, then the segments of the pattern. *)
Lemma glob_parse_rooted (root tail : jsstring) (ps : list gseg) :
  forallb plain root = true ->
  glob_parse tail = Some ps ->
  glob_parse (root ++ slash :: tail)
  = Some (map literal_segment (segments root) ++ ps).
Proof.
  intros Hroot Htail. unfold glob_parse.
  rewrite segments_app_slash, map_app.
  apply sequence_app; [|exact Htail].
  apply sequence_literal, segments_plain, Hroot.
Qed.

Lemma segs_match_literal_front (rs : list jsstring) (ps : list gseg)
  (fs : list jsstring) :
  segs_match (map literal_segment rs ++ ps) fs = true ->
  exists fs', fs = rs ++ fs' /\ segs_match ps fs' = true.
Proof.
  revert fs; induction rs as [|r rs IH]; intros fs H.
  - exists fs. auto.
  - change (map literal_segment (r :: rs) ++ ps)
      with (Seg (map GLit r) :: (map literal_segment rs ++ ps)) in H.
    apply segs_match_seg_iff in H as (f & fs1 & -> & Hf & H).
    apply seg_match_literal in Hf. subst f.
    apply IH in H as (fs' & -> & H). exists fs'. auto.
Qed.

Lemma join_app (a b : list jsstring) :
  a <> [] -> b <> [] -> join (a ++ b) = join a ++ slash :: join b.
Proof.
  intros Ha Hb. induction a as [|x a IH]; [congruence|].
  destruct a as [|y a].
  - simpl app. rewrite join_cons by exact Hb. reflexivity.
  - change ((x :: y :: a) ++ b) with (x :: ((y :: a) ++ b)).
    rewrite join_cons by discriminate. rewrite IH by discriminate.
    rewrite (join_cons x (y :: a)) by discriminate.
    rewrite <- app_assoc. reflexivity.
Qed.

(** A path matched by an include pattern lies below the source directory
    of the root. *)
Lemma rooted_glob_prefix (root tail path : jsstring) (ts : list gtok)
  (ps : list gseg) :
  forallb plain root = true ->
  glob_parse tail
  = Some (Seg (map GLit (units "src")) :: GlobStar :: Seg ts :: ps) ->
  glob_matches (root ++ slash :: tail) path = true ->
  exists t, path = root ++ units "/src/" ++ t.
Proof.
  intros Hroot Htail H. unfold glob_matches in H.
  rewrite (glob_parse_rooted root tail _ Hroot Htail) in H.
  apply segs_match_literal_front in H as (fs & Hs & H).
  apply segs_match_seg_iff in H as (f & fs' & -> & Hf & H).
  apply seg_match_literal in Hf. subst f.
  assert (Hne : fs' <> []) by (intros ->; discriminate).
  exists (join fs'). rewrite <- (join_segments path), Hs.
  rewrite join_app; [| apply segments_not_nil | discriminate].
  rewrite join_segments, join_cons by exact Hne. reflexivity.
Qed.

Lemma test_matched_in_prefix (d : Defaults) (root path : jsstring) :
  forallb plain root = true ->
  test_matched_in root (createJestConfig d customJestConfig) path = true ->
  exists t, path = root ++ units "/src/" ++ t.
Proof.
  intros Hroot H. unfold test_matched_in in H.
  cbn [testMatch createJestConfig customJestConfig existsb] in H.
  rewrite orb_false_r in H. apply orb_true_iff in H as [H|H];
    eapply rooted_glob_prefix; try exact H; try exact Hroot; reflexivity.
Qed.

Lemma patterns_absent_none (root : jsstring) (patterns : list string)
  (path : jsstring) :
  patterns_absent root patterns path = true ->
  existsb (fun p => regex_test (replace_token root 0 (units p)) path) patterns
  = false.
Proof.
  induction patterns as [|p patterns IH]; [reflexivity|].
  cbn [patterns_absent forallb existsb]. intros H.
  apply andb_true_iff in H as [Hp H].
  destruct (regex_parse (replace_token root 0 (units p))); [|discriminate].
  apply negb_true_iff in Hp. rewrite Hp. apply IH, H.
Qed.

(** C8, as amended. For a project at root [R], the include and ignore sets
    of the exported configuration are disjoint on the paths in which [R/]
    occurs at the start only and in which none of the ignore patterns that
    the framework puts in front of the list is found: no such path is
    matched by a [testMatch] pattern and found by a
    [testPathIgnorePatterns] entry. *)
Theorem include_ignore_disjoint_below_root (d : Defaults)
  (root path : jsstring) :
  project_root root = true ->
  patterns_absent root (ignoreDefaults d) path = true ->
  no_later_occurrence (root ++ [slash]) path = true ->
  ~ (test_matched_in root (createJestConfig d customJestConfig) path = true
     /\ path_ignored_in root (createJestConfig d customJestConfig) path
        = true).
Proof.
  intros Hroot Habs Hlater [Hm Hi].
  unfold project_root in Hroot. apply andb_true_iff in Hroot as [_ Hroot].
  apply (test_matched_in_prefix d root path Hroot) in Hm as (t & ->).
  unfold path_ignored_in in Hi.
  cbn [testPathIgnorePatterns createJestConfig] in Hi.
  rewrite existsb_app, (patterns_absent_none _ _ _ Habs) in Hi.
  cbn [testPathIgnorePatterns customJestConfig existsb orb] in Hi.
  change (replace_token root 0 (units "<rootDir>/.next/"))
    with (root ++ slash :: units ".next/") in Hi.
  change (replace_token root 0 (units "<rootDir>/node_modules/"))
    with (root ++ slash :: units "node_modules/") in Hi.
  change (replace_token root 0 (units "<rootDir>/tests/"))
    with (root ++ slash :: units "tests/") in Hi.
  rewrite (rooted_ignore_not_found root (units ".next/")
             (Seq Any (chars (units "next/") Empty)) t Hroot) in Hi;
    [| intros n; reflexivity
     | intros st Hst; cbn [run]; rewrite Hst; reflexivity
     | exact Hlater].
  rewrite (rooted_ignore_not_found root (units "node_modules/")
             (chars (units "node_modules/") Empty) t Hroot) in Hi;
    [| intros n; reflexivity
     | intros st Hst; rewrite run_chars, Hst; reflexivity
     | exact Hlater].
  rewrite (rooted_ignore_not_found root (units "tests/")
             (chars (units "tests/") Empty) t Hroot) in Hi;
    [| intros n; reflexivity
     | intros st Hst; rewrite run_chars, Hst; reflexivity
     | exact Hlater].
  discriminate.
Qed.

Lemma include_ignore_disjoint_below_root_witness :
  (project_root (units "/workspaces/app") = true
   /\ patterns_absent (units "/workspaces/app")
        (ignoreDefaults nextJestDefaults)
        (units "/workspaces/app/src/tests/date.test.ts") = true
   /\ no_later_occurrence (units "/workspaces/app" ++ [slash])
        (units "/workspaces/app/src/tests/date.test.ts") = true)
  /\ ~ (test_matched_in (units "/workspaces/app") exported
          (units "/workspaces/app/src/tests/date.test.ts") = true
        /\ path_ignored_in (units "/workspaces/app") exported
             (units "/workspaces/app/src/tests/date.test.ts") = true).
Proof.
  split; [repeat split; reflexivity|].
  apply (include_ignore_disjoint_below_root nextJestDefaults
           (units "/workspaces/app")
           (units "/workspaces/app/src/tests/date.test.ts")); reflexivity.
Defined.

(** C8, as stated, fails: a test file below a directory [.next] of the
    source directory is matched by the second include pattern and found by
    the framework's ['/.next/'], which is looked for anywhere in the
    path. *)
Lemma include_ignore_overlap :
  test_matched_in (units "/workspaces/app") exported
    (units "/workspaces/app/src/.next/a.test.ts") = true
  /\ path_ignored_in (units "/workspaces/app") exported
       (units "/workspaces/app/src/.next/a.test.ts") = true.
Proof. split; reflexivity. Qed.

(** The third hypothesis is needed: where the text of the root comes back
    in the path, a pattern of the config object is found further down,
    although none of the framework's is. *)
Lemma include_ignore_overlap_root_again :
  patterns_absent (units "/app") (ignoreDefaults nextJestDefaults)
    (units "/app/src/app/tests/a.test.ts") = true
  /\ test_matched_in (units "/app") exported
       (units "/app/src/app/tests/a.test.ts") = true
  /\ path_ignored_in (units "/app") exported
       (units "/app/src/app/tests/a.test.ts") = true.
Proof. repeat split. Qed.

End RootedRunner.
